(** * MachineMon Home Assistant client: check-in runtime, API client, payload builder

    A shallow embedding of [custom_components/machinemon/api.py] and
    [custom_components/machinemon/runtime.py], with the parts of the Python
    standard library they call ([str] methods, [ipaddress], the truthiness
    and [str()] of decoded JSON values) modelled next to them.

    A Python [str] is a [string] whose characters are the code points below
    256; [int] is [Z]; a [dict] keyed by strings is a [gmap string _] where
    only lookups matter and an association list where its order is observed;
    a [set] of strings is a [gset string]. *)

From Stdlib Require Import ZArith List Bool Ascii String PrimFloat.
From stdpp Require Import gmap strings pretty sorting.

(** ** Python string methods *)

Module PyStr.

Definition ord (c : ascii) : N := N_of_ascii c.

Definition backslash : ascii := "092"%char.

(** [str.isspace] on one character: the ASCII white space of CPython's
    table (TAB..CR, FS..US, space) and, below 256, NEL and NBSP. *)
Definition isspace (c : ascii) : bool :=
  let n := ord c in
  ((9 <=? n) && (n <=? 13) || (28 <=? n) && (n <=? 32)
   || (n =? 133) || (n =? 160))%N.

Fixpoint lstrip (s : string) : string :=
  match s with
  | String c s' => if isspace c then lstrip s' else s
  | EmptyString => EmptyString
  end.

Definition rstrip (s : string) : string :=
  String.rev (lstrip (String.rev s)).

(** [s.strip()] *)
Definition strip (s : string) : string := rstrip (lstrip s).

(** [bool(s)] *)
Definition truthy (s : string) : bool :=
  match s with EmptyString => false | String _ _ => true end.

(** [s.startswith(p)] *)
Definition startswith (s p : string) : bool := String.prefix p s.

(** [c in s] *)
Fixpoint contains (c : ascii) (s : string) : bool :=
  match s with
  | EmptyString => false
  | String d s' => Ascii.eqb c d || contains c s'
  end.

(** [s.partition(c)]: the text before the first [c], whether [c] was
    found, and the text after it. *)
Fixpoint partition (c : ascii) (s : string) : string * bool * string :=
  match s with
  | EmptyString => (EmptyString, false, EmptyString)
  | String d s' =>
      if Ascii.eqb c d then (EmptyString, true, s')
      else let '(a, found, b) := partition c s' in (String d a, found, b)
  end.

(** [s.split(c, 1)[0]] *)
Definition split1_head (c : ascii) (s : string) : string :=
  (partition c s).1.1.

(** [s.split(c)]: never empty, [""] splits to [[""]]. *)
Fixpoint split (c : ascii) (s : string) : list string :=
  match s with
  | EmptyString => [EmptyString]
  | String d s' =>
      if Ascii.eqb c d then EmptyString :: split c s'
      else match split c s' with
           | w :: ws => String d w :: ws
           | [] => [String d EmptyString]
           end
  end.

(** [sep.join(ws)] *)
Fixpoint join (sep : string) (ws : list string) : string :=
  match ws with
  | [] => ""
  | [w] => w
  | w :: ws' => w +:+ sep +:+ join sep ws'
  end.

(** [s[:n]] for [n >= 0] *)
Fixpoint take (n : nat) (s : string) : string :=
  match n, s with
  | S n', String c s' => String c (take n' s')
  | _, _ => EmptyString
  end.

(** [s.rstrip(chars)] for a one-character [chars] *)
Fixpoint lstrip_char (c : ascii) (s : string) : string :=
  match s with
  | String d s' => if Ascii.eqb c d then lstrip_char c s' else s
  | EmptyString => EmptyString
  end.

Definition rstrip_char (c : ascii) (s : string) : string :=
  String.rev (lstrip_char c (String.rev s)).

(** [s.lower()] below 256: A..Z and the Latin-1 capitals. *)
Definition lower_char (c : ascii) : ascii :=
  let n := ord c in
  if ((65 <=? n) && (n <=? 90)
      || (192 <=? n) && (n <=? 222) && negb (n =? 215))%N
  then ascii_of_N (n + 32) else c.

Fixpoint lower (s : string) : string :=
  match s with
  | EmptyString => EmptyString
  | String c s' => String (lower_char c) (lower s')
  end.

(** [sorted(xs)] for a set of strings: ascending in the code-point order. *)
Definition sorted (xs : gset string) : list string :=
  merge_sort String.le (elements xs).

End PyStr.

(** ** The standard library's [ipaddress] module

    [ip_address], [is_loopback], [is_link_local] and [compressed] as CPython
    3.11 defines them on strings: dotted-quad IPv4 with no leading zeros,
    IPv6 with one optional [::], an optional IPv4 suffix and an optional
    [%scope] suffix. *)

Module ipaddress.

Local Open Scope Z_scope.

Inductive address : Type :=
| IPv4Address (ip : Z)
| IPv6Address (ip : Z) (scope_id : option string).

Definition scope_id (a : address) : option string :=
  match a with
  | IPv4Address _ => None
  | IPv6Address _ sc => sc
  end.

Definition digit_value (c : ascii) : option Z :=
  let n := Z.of_N (PyStr.ord c) in
  if (48 <=? n) && (n <=? 57) then Some (n - 48) else None.

Definition hex_value (c : ascii) : option Z :=
  let n := Z.of_N (PyStr.ord c) in
  if (48 <=? n) && (n <=? 57) then Some (n - 48)
  else if (65 <=? n) && (n <=? 70) then Some (n - 55)
  else if (97 <=? n) && (n <=? 102) then Some (n - 87)
  else None.

(** [int(s, base)] for a non-empty [s] made of digits of the base;
    [None] stands for the [ValueError]. *)
Fixpoint int_go (value : ascii -> option Z) (base acc : Z) (s : string)
  : option Z :=
  match s with
  | EmptyString => Some acc
  | String c s' =>
      match value c with
      | Some d => int_go value base (base * acc + d) s'
      | None => None
      end
  end.

Definition int_of (value : ascii -> option Z) (base : Z) (s : string)
  : option Z :=
  match s with
  | EmptyString => None
  | _ => int_go value base 0 s
  end.

(** [IPv4Address._parse_octet] *)
Definition _parse_octet (octet_str : string) : option Z :=
  match octet_str with
  | EmptyString => None
  | String c0 rest =>
      if (3 <? String.length octet_str)%nat then None
      else if negb (String.eqb octet_str "0") && Ascii.eqb c0 "0" then None
      else match int_of digit_value 10 octet_str with
           | Some n => if 255 <? n then None else Some n
           | None => None
           end
  end.

Fixpoint from_bytes (acc : Z) (parts : list string) : option Z :=
  match parts with
  | [] => Some acc
  | p :: ps =>
      match _parse_octet p with
      | Some n => from_bytes (Z.lor (Z.shiftl acc 8) n) ps
      | None => None
      end
  end.

(** [IPv4Address(addr_str)._ip] *)
Definition ipv4_int (addr_str : string) : option Z :=
  if PyStr.contains "/" addr_str then None
  else match addr_str with
       | EmptyString => None
       | _ =>
           let octets := PyStr.split "." addr_str in
           if negb (length octets =? 4)%nat then None
           else from_bytes 0 octets
       end.

(** [IPv6Address._parse_hextet] *)
Definition _parse_hextet (hextet_str : string) : option Z :=
  if (4 <? String.length hextet_str)%nat then None
  else int_of hex_value 16 hextet_str.

Fixpoint parse_hextets (acc : Z) (parts : list string) : option Z :=
  match parts with
  | [] => Some acc
  | p :: ps =>
      match _parse_hextet p with
      | Some n => parse_hextets (Z.lor (Z.shiftl acc 16) n) ps
      | None => None
      end
  end.

Definition is_empty (s : string) : bool := negb (PyStr.truthy s).

(** ['%x' % n] for [0 <= n < 65536] *)
Definition hex_digit (n : Z) : ascii :=
  ascii_of_N (Z.to_N (if n <? 10 then 48 + n else 87 + n)).

Definition hex_of_hextet (n : Z) : string :=
  let d i := hex_digit (Z.land (Z.shiftr n (4 * i)) 15) in
  if 4096 <=? n then String (d 3) (String (d 2) (String (d 1) (String (d 0) "")))
  else if 256 <=? n then String (d 2) (String (d 1) (String (d 0) ""))
  else if 16 <=? n then String (d 1) (String (d 0) "")
  else String (d 0) "".

(** Index of the empty part strictly between the two ends, when there is
    exactly one; [Some None] when there is none, [None] when there are
    several (more than one [::]). *)
Fixpoint find_skip (i : nat) (inner : list string) : option (option nat) :=
  match inner with
  | [] => Some None
  | p :: ps =>
      match find_skip (S i) ps with
      | None => None
      | Some later =>
          if is_empty p
          then match later with None => Some (Some i) | Some _ => None end
          else Some later
      end
  end.

(** [IPv6Address._ip_int_from_string] *)
Definition ipv6_int (ip_str : string) : option Z :=
  match ip_str with
  | EmptyString => None
  | _ =>
    let parts := PyStr.split ":" ip_str in
    if (length parts <? 3)%nat then None else
    let last_part := List.last parts "" in
    let parts' :=
      if PyStr.contains "." last_part then
        match ipv4_int last_part with
        | Some v4 =>
            Some (removelast parts ++
                  [hex_of_hextet (Z.land (Z.shiftr v4 16) 65535);
                   hex_of_hextet (Z.land v4 65535)])
        | None => None
        end
      else Some parts in
    match parts' with
    | None => None
    | Some parts =>
      if (9 <? length parts)%nat then None else
      let n := length parts in
      let first_empty := is_empty (List.hd "" parts) in
      let last_empty := is_empty (List.last parts "") in
      match find_skip 1 (removelast (List.tl parts)) with
      | None => None
      | Some (Some skip_index) =>
          let parts_hi := if first_empty then (skip_index - 1)%nat else skip_index in
          let parts_lo := if last_empty then (n - skip_index - 2)%nat
                          else (n - skip_index - 1)%nat in
          if first_empty && negb (parts_hi =? 0)%nat then None
          else if last_empty && negb (parts_lo =? 0)%nat then None
          else if (8 <=? parts_hi + parts_lo)%nat then None
          else
            let parts_skipped := (8 - (parts_hi + parts_lo))%nat in
            match parse_hextets 0 (List.firstn parts_hi parts) with
            | None => None
            | Some hi =>
                parse_hextets (Z.shiftl hi (16 * Z.of_nat parts_skipped))
                              (List.skipn (n - parts_lo) parts)
            end
      | Some None =>
          if negb (n =? 8)%nat then None
          else if first_empty || last_empty then None
          else parse_hextets 0 parts
      end
    end
  end.

(** [IPv6Address._split_scope_id] followed by the integer parse. *)
Definition ipv6_parse (addr_str : string) : option address :=
  if PyStr.contains "/" addr_str then None else
  let '(addr, sep, scope) := PyStr.partition "%" addr_str in
  if sep && (is_empty scope || PyStr.contains "%" scope) then None
  else match ipv6_int addr with
       | Some ip => Some (IPv6Address ip (if sep then Some scope else None))
       | None => None
       end.

(** [ipaddress.ip_address(address)]: IPv4 first, then IPv6; [None] stands
    for the [ValueError]. *)
Definition ip_address (addr_str : string) : option address :=
  match ipv4_int addr_str with
  | Some ip => Some (IPv4Address ip)
  | None => ipv6_parse addr_str
  end.

(** [is_loopback]: membership of [127.0.0.0/8] for IPv4, the address [::1]
    for IPv6 (an IPv4-mapped IPv6 address is judged as the IPv6 address it
    is). *)
Definition is_loopback (a : address) : bool :=
  match a with
  | IPv4Address ip => Z.shiftr ip 24 =? 127
  | IPv6Address ip _ => ip =? 1
  end.

(** [is_link_local]: membership of [169.254.0.0/16] and of [fe80::/10]. *)
Definition is_link_local (a : address) : bool :=
  match a with
  | IPv4Address ip => Z.shiftr ip 16 =? 43518
  | IPv6Address ip _ => Z.shiftr ip 118 =? 1018
  end.

(** The eight hextets of a 128-bit integer, most significant first. *)
Definition hextets (ip : Z) : list string :=
  map (fun i => hex_of_hextet (Z.land (Z.shiftr ip (16 * (7 - Z.of_nat i))) 65535))
      (seq 0 8).

(** The first longest run of ["0"] hextets: [(start, len)]. *)
Fixpoint best_run (hs : list string) (index : nat)
         (cur : option nat) (cur_len : nat) (best : nat * nat) : nat * nat :=
  match hs with
  | [] => best
  | h :: hs' =>
      if String.eqb h "0" then
        let start := default index cur in
        let len := S cur_len in
        let best' := if (best.2 <? len)%nat then (start, len) else best in
        best_run hs' (S index) (Some start) len best'
      else best_run hs' (S index) None 0%nat best
  end.

(** [IPv6Address._compress_hextets] *)
Definition _compress_hextets (hs : list string) : list string :=
  let '(start, len) := best_run hs 0 None 0 (0, 0)%nat in
  if (1 <? len)%nat then
    let stop := (start + len)%nat in
    let tail_part := List.skipn stop hs in
    let tail_part := if (stop =? length hs)%nat then [""] else tail_part in
    let body := List.firstn start hs ++ "" :: tail_part in
    if (start =? 0)%nat then "" :: body else body
  else hs.

Definition octets (ip : Z) : list string :=
  map (fun i => pretty (Z.land (Z.shiftr ip (8 * (3 - Z.of_nat i))) 255))
      (seq 0 4).

(** [address.compressed] *)
Definition compressed (a : address) : string :=
  match a with
  | IPv4Address ip => PyStr.join "." (octets ip)
  | IPv6Address ip sc =>
      let text := PyStr.join ":" (_compress_hextets (hextets ip)) in
      match sc with
      | Some scope => text +:+ "%" +:+ scope
      | None => text
      end
  end.

End ipaddress.

(** ** What the host reports: [psutil], [socket], [platform] *)

Module psutil.

(** One [snicaddr] of [psutil.net_if_addrs()]; only [address] is read. *)
Record snicaddr : Type := { address : string }.

(** [psutil.virtual_memory()] *)
Module svmem.
Record t : Type := { percent : float; total : Z; used : Z }.
End svmem.

(** [psutil.disk_usage(path)] *)
Module sdiskusage.
Record t : Type := { percent : float; total : Z; used : Z }.
End sdiskusage.

End psutil.

(** The readings the runtime module takes from the machine it runs on, at
    the moment it takes them. *)
Record Host : Type := {
  gethostname : string;                              (* socket.gethostname() *)
  system : string;                                   (* platform.system() *)
  machine : string;                                  (* platform.machine() *)
  virtual_memory : psutil.svmem.t;                   (* psutil.virtual_memory() *)
  disk_usage : string -> psutil.sdiskusage.t;        (* psutil.disk_usage(path) *)
  cpu_percent : float;                               (* psutil.cpu_percent(interval=None) *)
  net_if_addrs : list (string * list psutil.snicaddr) (* psutil.net_if_addrs() *)
}.

(** ** [runtime._interface_ips] *)

(** The body of the inner loop: what one [snicaddr] does to [addresses]. *)
Definition add_address (addresses : gset string) (addr : psutil.snicaddr)
  : gset string :=
  let raw := PyStr.strip (psutil.address addr) in
  if negb (PyStr.truthy raw) then addresses
  else
    let raw := if PyStr.startswith raw "fe80:"
               then PyStr.split1_head "%" raw else raw in
    match ipaddress.ip_address raw with
    | None => addresses
    | Some parsed =>
        if ipaddress.is_loopback parsed then addresses
        else {[ ipaddress.compressed parsed ]} ∪ addresses
    end.

Definition _interface_ips (h : Host) : list string :=
  let addresses :=
    foldl (fun acc if_addrs => foldl add_address acc if_addrs)
          ∅ (map snd (net_if_addrs h)) in
  PyStr.sorted addresses.

(** ** [runtime._build_checkin_payload] *)

Record Metrics : Type := {
  cpu_pct : float;
  mem_pct : float;
  mem_total_bytes : Z;
  mem_used_bytes : Z;
  disk_pct : float;
  disk_total_bytes : Z;
  disk_used_bytes : Z
}.

Module Payload.
Record t : Type := {
  hostname : string;
  os : string;
  arch : string;
  client_version : string;
  client_id : string;
  session_id : string;
  interface_ips : list string;
  metrics : Metrics;
  processes : list string;
  checks : list string
}.
End Payload.

Definition _build_checkin_payload (client_id session_id : string) (h : Host)
  : Payload.t :=
  let virtual_mem := virtual_memory h in
  let disk_path :=
    if String.eqb (PyStr.lower (system h)) "windows" then String "C" (String ":" (String PyStr.backslash ""))
    else "/" in
  let disk_usage := disk_usage h disk_path in
  {| Payload.hostname := gethostname h;
     Payload.os := PyStr.lower (system h);
     Payload.arch := PyStr.lower (machine h);
     Payload.client_version := "ha-integration-0.1.0";
     Payload.client_id := client_id;
     Payload.session_id := session_id;
     Payload.interface_ips := _interface_ips h;
     Payload.metrics :=
       {| cpu_pct := cpu_percent h;
          mem_pct := psutil.svmem.percent virtual_mem;
          mem_total_bytes := psutil.svmem.total virtual_mem;
          mem_used_bytes := psutil.svmem.used virtual_mem;
          disk_pct := psutil.sdiskusage.percent disk_usage;
          disk_total_bytes := psutil.sdiskusage.total disk_usage;
          disk_used_bytes := psutil.sdiskusage.used disk_usage |};
     Payload.processes := [];
     Payload.checks := [] |}.

(** ** The builder as a program that calls the host

    [_build_checkin_payload] and [_interface_ips] are not given the host:
    their parameters are [client_id] and [session_id], and none, and their
    bodies call [psutil], [socket] and [platform]. Here the two functions
    are written as such programs, each call to the host explicit and in the
    order in which Python evaluates it. [run] answers the calls from the
    readings of a [Host], [calls] lists them as they are made. *)

Module HostIO.

(** A call to the host, and the type of what it returns. *)
Inductive call : Type :=
| psutil_virtual_memory
| platform_system
| psutil_disk_usage (path : string)
| socket_gethostname
| platform_machine
| psutil_net_if_addrs
| psutil_cpu_percent.                       (* cpu_percent(interval=None) *)

Definition result (c : call) : Type :=
  match c with
  | psutil_virtual_memory => psutil.svmem.t
  | platform_system => string
  | psutil_disk_usage _ => psutil.sdiskusage.t
  | socket_gethostname => string
  | platform_machine => string
  | psutil_net_if_addrs => list (string * list psutil.snicaddr)
  | psutil_cpu_percent => float
  end.

(** A program: a result, or a call and the rest of the program for each
    answer. *)
Inductive io (A : Type) : Type :=
| Ret (a : A)
| Vis (c : call) (k : result c -> io A).
Arguments Ret {A} a.
Arguments Vis {A} c k.

Fixpoint bind {A B : Type} (m : io A) (f : A -> io B) : io B :=
  match m with
  | Ret a => f a
  | Vis c k => Vis c (fun x => bind (k x) f)
  end.

#[global] Instance io_ret : MRet io := @Ret.
#[global] Instance io_bind : MBind io := fun A B f m => bind m f.

Definition perform (c : call) : io (result c) := Vis c Ret.

(** What the host [h] answers. *)
Definition answer (h : Host) (c : call) : result c :=
  match c with
  | psutil_virtual_memory => virtual_memory h
  | platform_system => system h
  | psutil_disk_usage path => disk_usage h path
  | socket_gethostname => gethostname h
  | platform_machine => machine h
  | psutil_net_if_addrs => net_if_addrs h
  | psutil_cpu_percent => cpu_percent h
  end.

Fixpoint run {A : Type} (h : Host) (m : io A) : A :=
  match m with
  | Ret a => a
  | Vis c k => run h (k (answer h c))
  end.

(** The calls a program makes on [h], first one first. *)
Fixpoint calls {A : Type} (h : Host) (m : io A) : list call :=
  match m with
  | Ret _ => []
  | Vis c k => c :: calls h (k (answer h c))
  end.

(** [runtime._interface_ips()] *)
Definition _interface_ips : io (list string) :=
  interfaces ← perform psutil_net_if_addrs;
  let addresses :=
    foldl (fun acc if_addrs => foldl add_address acc if_addrs)
          ∅ (map snd interfaces) in
  mret (PyStr.sorted addresses).

(** [runtime._build_checkin_payload(client_id, session_id)] *)
Definition _build_checkin_payload (client_id session_id : string)
  : io Payload.t :=
  virtual_mem ← perform psutil_virtual_memory;
  system_name ← perform platform_system;
  let disk_path :=
    if String.eqb (PyStr.lower system_name) "windows"
    then String "C" (String ":" (String PyStr.backslash ""))
    else "/" in
  disk_usage ← perform (psutil_disk_usage disk_path);
  hostname ← perform socket_gethostname;
  os ← perform platform_system;
  arch ← perform platform_machine;
  interface_ips ← _interface_ips;
  cpu_pct ← perform psutil_cpu_percent;
  mret {| Payload.hostname := hostname;
          Payload.os := PyStr.lower os;
          Payload.arch := PyStr.lower arch;
          Payload.client_version := "ha-integration-0.1.0";
          Payload.client_id := client_id;
          Payload.session_id := session_id;
          Payload.interface_ips := interface_ips;
          Payload.metrics :=
            {| cpu_pct := cpu_pct;
               mem_pct := psutil.svmem.percent virtual_mem;
               mem_total_bytes := psutil.svmem.total virtual_mem;
               mem_used_bytes := psutil.svmem.used virtual_mem;
               disk_pct := psutil.sdiskusage.percent disk_usage;
               disk_total_bytes := psutil.sdiskusage.total disk_usage;
               disk_used_bytes := psutil.sdiskusage.used disk_usage |};
          Payload.processes := [];
          Payload.checks := [] |}.

End HostIO.

(** ** Decoded JSON values as Python objects *)

Module json.

#[local] Set Warnings "-register-all".

(** What [json.loads] builds. A [float] is carried with the text that
    [float.__repr__] gives it; a [dict] keeps its insertion order. *)
Inductive value : Type :=
| JNull
| JBool (b : bool)
| JInt (n : Z)
| JFloat (f : float) (repr_text : string)
| JStr (s : string)
| JArr (items : list value)
| JObj (members : list (string * value)).

(** [bool(v)] *)
Definition truthy (v : value) : bool :=
  match v with
  | JNull => false
  | JBool b => b
  | JInt n => negb (n =? 0)%Z
  | JFloat f _ => negb (PrimFloat.eqb f 0%float)
  | JStr s => PyStr.truthy s
  | JArr items => match items with [] => false | _ => true end
  | JObj members => match members with [] => false | _ => true end
  end.

(** [x or y] *)
Definition or_ (x y : value) : value := if truthy x then x else y.

(** [d.get(key)]: [None] when the key is absent. *)
Fixpoint get (key : string) (members : list (string * value)) : value :=
  match members with
  | [] => JNull
  | (k, v) :: rest => if String.eqb k key then v else get key rest
  end.

Definition dquote : ascii := "034"%char.

Definition hex2 (n : N) : string :=
  String (ipaddress.hex_digit (Z.of_N (n / 16)))
         (String (ipaddress.hex_digit (Z.of_N (n mod 16))) "").

Definition printable (n : N) : bool :=
  ((32 <=? n) && (n <? 127) || (161 <=? n) && negb (n =? 173))%N.

(** One character of [repr(s)] inside the quote [q]. *)
Definition repr_char (q c : ascii) : string :=
  let n := PyStr.ord c in
  let esc (x : string) : string := String PyStr.backslash x in
  if Ascii.eqb c q || Ascii.eqb c PyStr.backslash then esc (String c "")
  else if (n =? 9)%N then esc "t"
  else if (n =? 10)%N then esc "n"
  else if (n =? 13)%N then esc "r"
  else if printable n then String c ""
  else esc ("x" +:+ hex2 n).

Fixpoint repr_chars (q : ascii) (s : string) : string :=
  match s with
  | EmptyString => EmptyString
  | String c s' => repr_char q c +:+ repr_chars q s'
  end.

(** [repr(s)] for a [str]: single quotes unless [s] holds a single quote
    and no double quote. *)
Definition repr_str (s : string) : string :=
  let q := if PyStr.contains "'" s && negb (PyStr.contains dquote s)
           then dquote else "'"%char in
  String q (repr_chars q s) +:+ String q "".

(** [repr(v)] *)
Fixpoint repr (v : value) : string :=
  match v with
  | JNull => "None"
  | JBool true => "True"
  | JBool false => "False"
  | JInt n => pretty n
  | JFloat _ text => text
  | JStr s => repr_str s
  | JArr items => "[" +:+ PyStr.join ", " (map repr items) +:+ "]"
  | JObj members =>
      "{" +:+ PyStr.join ", "
                (map (fun '(k, x) => repr_str k +:+ ": " +:+ repr x) members)
          +:+ "}"
  end.

(** [str(v)] *)
Definition str (v : value) : string :=
  match v with
  | JStr s => s
  | _ => repr v
  end.

End json.

(** ** Exceptions

    The classes the two modules raise or catch, with the base class each
    one is declared with, and [isinstance] over them. *)

Inductive exc_class : Type :=
| Exception
| ValueError
| JSONDecodeError                 (* json.JSONDecodeError(ValueError) *)
| ClientError                     (* aiohttp.ClientError *)
| TimeoutError                    (* asyncio.TimeoutError *)
| MachineMonApiError              (* class MachineMonApiError(Exception) *)
| MachineMonAuthError             (* class MachineMonAuthError(MachineMonApiError) *)
| MachineMonConnectionError.      (* class MachineMonConnectionError(MachineMonApiError) *)

Global Instance exc_class_eq_dec : EqDecision exc_class.
Proof. solve_decision. Defined.

Definition base_class (c : exc_class) : option exc_class :=
  match c with
  | Exception => None
  | ValueError => Some Exception
  | JSONDecodeError => Some ValueError
  | ClientError => Some Exception
  | TimeoutError => Some Exception
  | MachineMonApiError => Some Exception
  | MachineMonAuthError => Some MachineMonApiError
  | MachineMonConnectionError => Some MachineMonApiError
  end.

Fixpoint issubclass_fuel (fuel : nat) (c d : exc_class) : bool :=
  bool_decide (c = d) ||
  match fuel, base_class c with
  | S fuel', Some b => issubclass_fuel fuel' b d
  | _, _ => false
  end.

(** [issubclass(c, d)]; no chain of bases is longer than three. *)
Definition issubclass (c d : exc_class) : bool := issubclass_fuel 3 c d.

(** A raised exception: its exact class and [str(err)]. *)
Record exn : Type := Exn { exc_type : exc_class; exc_str : string }.

Definition isinstance (e : exn) (c : exc_class) : bool :=
  issubclass (exc_type e) c.

(** What awaiting a call gives: a value, or a raised exception. *)
Inductive outcome (A : Type) : Type :=
| Returns (a : A)
| Raises (e : exn).
Arguments Returns {A} a.
Arguments Raises {A} e.

(** ** [aiohttp]: one request and what comes back *)

Module aiohttp.

Record Request : Type := {
  method : string;
  url : string;
  headers : gmap string string;
  json : option Payload.t;
  timeout_total : Z                    (* ClientTimeout(total=...) *)
}.

(** What [response.json(content_type=None)] does with the body: the
    decoded value ([None] for a blank body), or [JSONDecodeError] with
    its message for a body that is not JSON. *)
Inductive decoded : Type :=
| Decodes (v : json.value)
| NotJson (msg : string).

Record ClientResponse : Type := {
  status : Z;
  text : string;                       (* await response.text() *)
  body_json : decoded
}.

Definition json_ (r : ClientResponse) : outcome json.value :=
  match body_json r with
  | Decodes v => Returns v
  | NotJson msg => Raises (Exn JSONDecodeError msg)
  end.

(** The exchange as the caller observes it: [Fails e] when the
    [async with session.request(...)] block raises [e] from the
    transport (resolving, connecting, timing out, reading), [Responds r]
    when a response arrives. *)
Inductive exchange : Type :=
| Fails (e : exn)
| Responds (r : ClientResponse).

Definition ClientSession : Type := Request -> exchange.

End aiohttp.

(** ** [api.MachineMonApiClient] *)

Record MachineMonApiClient : Type := {
  _session : aiohttp.ClientSession;
  _base_url : string
}.

Definition MachineMonApiClient__init__
  (session : aiohttp.ClientSession) (collection_url : string)
  : MachineMonApiClient :=
  {| _session := session; _base_url := PyStr.rstrip_char "/" collection_url |}.

Definition dict : Type := list (string * json.value).

Definition _request_json (self : MachineMonApiClient) (method path : string)
    (headers : option (gmap string string)) (json_body : option Payload.t)
  : outcome dict :=
  let request_headers : gmap string string :=
    {[ "Accept" := "application/json" ]} in
  let request_headers :=
    match headers with
    | Some h => h ∪ request_headers      (* request_headers.update(headers) *)
    | None => request_headers
    end in
  let attempt : outcome dict :=
    match _session self
            {| aiohttp.method := method;
               aiohttp.url := _base_url self +:+ path;
               aiohttp.headers := request_headers;
               aiohttp.json := json_body;
               aiohttp.timeout_total := 15 |} with
    | aiohttp.Fails e => Raises e
    | aiohttp.Responds response =>
        if (aiohttp.status response =? 401)%Z then
          Raises (Exn MachineMonAuthError "Invalid client password")
        else if (400 <=? aiohttp.status response)%Z then
          let body := aiohttp.text response in
          Raises (Exn MachineMonApiError
                      ("HTTP " +:+ pretty (aiohttp.status response)
                       +:+ " from MachineMon API: " +:+ PyStr.take 200 body))
        else
          match aiohttp.json_ response with
          | Raises e => Raises e
          | Returns (json.JObj payload) => Returns payload
          | Returns _ =>
              Raises (Exn MachineMonApiError
                          "Invalid response: expected JSON object")
          end
    end in
  match attempt with
  | Returns payload => Returns payload
  | Raises err =>
      if isinstance err MachineMonApiError then Raises err
      else if isinstance err ClientError || isinstance err TimeoutError then
        Raises (Exn MachineMonConnectionError (exc_str err))
      else Raises err
  end.

Definition async_health_check (self : MachineMonApiClient) : outcome unit :=
  match _request_json self "GET" "/healthz" None None with
  | Returns _ => Returns tt
  | Raises e => Raises e
  end.

Definition async_checkin (self : MachineMonApiClient)
    (payload : Payload.t) (client_password : string) : outcome dict :=
  _request_json self "POST" "/api/v1/checkin"
                (Some {[ "X-Client-Password" := client_password ]})
                (Some payload).

(** ** [const] and the Home Assistant side *)

Definition DOMAIN : string := "machinemon".
Definition CONF_COLLECTION_URL : string := "collection_url".
Definition CONF_VERIFY_SSL : string := "verify_ssl".
Definition CONF_CLIENT_ID : string := "client_id".
Definition CONF_PASSWORD : string := "password".   (* homeassistant.const *)
Definition DEFAULT_CHECKIN_INTERVAL : Z := 120.       (* timedelta(seconds=120) *)

(** A value of [entry.data]. *)
Inductive conf_value : Type :=
| CStr (s : string)
| CBool (b : bool).

(** [str(v)] *)
Definition conf_str (v : conf_value) : string :=
  match v with
  | CStr s => s
  | CBool true => "True"
  | CBool false => "False"
  end.

Inductive log_level : Type := ERROR | WARNING.

(** What an attempt does that is visible outside the runtime object: a
    record of [_LOGGER], or a call of
    [hass.config_entries.async_update_entry(entry, data=data)]. *)
Inductive effect : Type :=
| Log (level : log_level) (msg : string)
| UpdateEntry (data : gmap string conf_value).

(** ** [runtime.MachineMonRuntime] *)

Record MachineMonRuntime : Type := {
  _api : MachineMonApiClient;
  _session_id : string;
  _client_id : string;
  _password : string;
  _lock : bool;                (* asyncio.Lock: [_lock.locked()] *)
  _unsub : bool                (* whether [_unsub] holds a timer handle *)
}.

(** The runtime object, the config entry it was built from, and the effects
    so far, oldest first. *)
Record State : Type := {
  self : MachineMonRuntime;
  entry_data : gmap string conf_value;
  effects : list effect
}.

(** [MachineMonRuntime.__init__]; [uuid4] is the text of the fresh
    [uuid.uuid4()], [None] stands for the [KeyError] of a missing key. *)
Definition MachineMonRuntime__init__
    (data : gmap string conf_value) (api : MachineMonApiClient) (uuid4 : string)
  : option MachineMonRuntime :=
  match data !! CONF_CLIENT_ID, data !! CONF_PASSWORD with
  | Some cid, Some pw =>
      Some {| _api := api; _session_id := uuid4;
              _client_id := conf_str cid; _password := conf_str pw;
              _lock := false; _unsub := false |}
  | _, _ => None
  end.

Definition set_lock (b : bool) (st : State) : State :=
  let r := self st in
  {| self := {| _api := _api r; _session_id := _session_id r;
                _client_id := _client_id r; _password := _password r;
                _lock := b; _unsub := _unsub r |};
     entry_data := entry_data st; effects := effects st |}.

Definition set_unsub (b : bool) (st : State) : State :=
  let r := self st in
  {| self := {| _api := _api r; _session_id := _session_id r;
                _client_id := _client_id r; _password := _password r;
                _lock := _lock r; _unsub := b |};
     entry_data := entry_data st; effects := effects st |}.

Definition log (level : log_level) (msg : string) (st : State) : State :=
  {| self := self st; entry_data := entry_data st;
     effects := effects st ++ [Log level msg] |}.

(** Lines 81-84: adopt [server_client_id] and hand the new mapping to
    [async_update_entry]. *)
Definition adopt (server_client_id : string) (st : State) : State :=
  let r := self st in
  let data := <[ CONF_CLIENT_ID := CStr server_client_id ]> (entry_data st) in
  {| self := {| _api := _api r; _session_id := _session_id r;
                _client_id := server_client_id; _password := _password r;
                _lock := _lock r; _unsub := _unsub r |};
     entry_data := data;
     effects := effects st ++ [UpdateEntry data] |}.

(** Line 79 *)
Definition server_client_id_of (response : dict) : string :=
  PyStr.strip (json.str (json.or_ (json.get "client_id" response) (json.JStr ""))).

(** [_async_checkin] up to its first [await]: the guard, the lock, and the
    arguments of the executor job. [None] is the early [return]. *)
Definition checkin_enter (st : State) : option (string * string) * State :=
  if _lock (self st) then (None, st)
  else (Some (_client_id (self st), _session_id (self st)), set_lock true st).

(** [_async_checkin] from the result of [async_checkin] to the end of the
    [async with], which releases the lock on every path. *)
Definition checkin_complete (result : outcome dict) (st : State)
  : outcome unit * State :=
  match result with
  | Raises err =>
      if isinstance err MachineMonAuthError then
        (Returns tt,
         set_lock false
           (log ERROR "MachineMon check-in rejected: invalid client password" st))
      else if isinstance err MachineMonApiError then
        (Returns tt,
         set_lock false
           (log WARNING ("MachineMon check-in failed: " +:+ exc_str err) st))
      else (Raises err, set_lock false st)
  | Returns response =>
      let server_client_id := server_client_id_of response in
      if PyStr.truthy server_client_id
         && negb (String.eqb server_client_id (_client_id (self st)))
      then (Returns tt, set_lock false (adopt server_client_id st))
      else (Returns tt, set_lock false st)
  end.

(** One whole attempt, run without interleaving on the host [h]. *)
Definition _async_checkin (h : Host) (st : State) : outcome unit * State :=
  match checkin_enter st with
  | (None, st) => (Returns tt, st)
  | (Some (client_id, session_id), st) =>
      let payload := _build_checkin_payload client_id session_id h in
      let result :=
        async_checkin (_api (self st)) payload (_password (self st)) in
      checkin_complete result st
  end.

(** ** The event loop around the runtime

    Each [async_create_task(self._async_checkin())] adds a task. A task
    runs without interruption from one [await] to the next; the guard test
    and the acquisition of a free [asyncio.Lock] have no suspension point
    between them. *)

Inductive task : Type :=
| Created                                      (* scheduled, not yet run *)
| Building (client_id session_id : string)     (* in [async_add_executor_job] *)
| Requesting (payload : Payload.t)             (* in [async_checkin] *)
| Done (result : outcome unit).

Record Loop : Type := {
  state : State;
  tasks : list task;
  timers : nat                 (* live [async_track_time_interval] registrations *)
}.

Inductive event : Type :=
| Start                                        (* [async_start] *)
| Stop                                         (* [async_stop] *)
| Tick                                         (* [_async_interval_tick] *)
| Run (i : nat)                                (* task [i] runs to its first await *)
| Built (i : nat) (h : Host)                   (* its executor job returns *)
| Responded (i : nat) (x : aiohttp.exchange).  (* its request is over *)

Definition set_task (i : nat) (t : task) (st : State) (w : Loop) : Loop :=
  {| state := st; tasks := <[ i := t ]> (tasks w); timers := timers w |}.

Definition step (ev : event) (w : Loop) : option Loop :=
  match ev with
  | Start =>
      Some {| state := set_unsub true (state w);
              tasks := tasks w ++ [Created];
              timers := S (timers w) |}
  | Stop =>
      if _unsub (self (state w)) then
        Some {| state := set_unsub false (state w);
                tasks := tasks w;
                timers := pred (timers w) |}
      else Some w
  | Tick =>
      match timers w with
      | O => None
      | S _ => Some {| state := state w; tasks := tasks w ++ [Created];
                       timers := timers w |}
      end
  | Run i =>
      match tasks w !! i with
      | Some Created =>
          match checkin_enter (state w) with
          | (None, st) => Some (set_task i (Done (Returns tt)) st w)
          | (Some (client_id, session_id), st) =>
              Some (set_task i (Building client_id session_id) st w)
          end
      | _ => None
      end
  | Built i h =>
      match tasks w !! i with
      | Some (Building client_id session_id) =>
          Some (set_task i
                  (Requesting (_build_checkin_payload client_id session_id h))
                  (state w) w)
      | _ => None
      end
  | Responded i x =>
      match tasks w !! i with
      | Some (Requesting payload) =>
          let api := {| _session := fun _ => x;
                        _base_url := _base_url (_api (self (state w))) |} in
          let result := async_checkin api payload (_password (self (state w))) in
          let '(r, st) := checkin_complete result (state w) in
          Some (set_task i (Done r) st w)
      | _ => None
      end
  end.

Fixpoint run (evs : list event) (w : Loop) : option Loop :=
  match evs with
  | [] => Some w
  | ev :: evs' =>
      match step ev w with
      | Some w' => run evs' w'
      | None => None
      end
  end.

(** The loop right after [async_setup_entry] built the runtime. *)
Definition boot (r : MachineMonRuntime) (data : gmap string conf_value) : Loop :=
  {| state := {| self := r; entry_data := data; effects := [] |};
     tasks := []; timers := 0 |}.

Definition in_flight (t : task) : bool :=
  match t with
  | Building _ _ | Requesting _ => true
  | Created | Done _ => false
  end.

(** ** Names used in the statements *)

(** The text [add_address] hands to [ip_address]. *)
Definition parser_input (addr : psutil.snicaddr) : string :=
  let raw := PyStr.strip (psutil.address addr) in
  if PyStr.startswith raw "fe80:" then PyStr.split1_head "%" raw else raw.

(** [addr] puts [s] into the set. *)
Definition contributes (addr : psutil.snicaddr) (s : string) : Prop :=
  ∃ parsed, ipaddress.ip_address (parser_input addr) = Some parsed
            ∧ ipaddress.is_loopback parsed = false
            ∧ s = ipaddress.compressed parsed.

(** A host that reports the given interfaces, for concrete runs. *)
Definition host_reporting (ifs : list (string * list psutil.snicaddr)) : Host :=
  {| gethostname := "ha-box";
     system := "Linux";
     machine := "x86_64";
     virtual_memory :=
       {| psutil.svmem.percent := 37.5; psutil.svmem.total := 8000000000;
          psutil.svmem.used := 3000000000 |};
     disk_usage := fun _ =>
       {| psutil.sdiskusage.percent := 50; psutil.sdiskusage.total := 64000000000;
          psutil.sdiskusage.used := 32000000000 |};
     cpu_percent := 12.5;
     net_if_addrs := ifs |}.

Definition nic (a : string) : psutil.snicaddr := {| psutil.address := a |}.

(** The path whose usage the builder asks the host for. *)
Definition disk_path (h : Host) : string :=
  if String.eqb (PyStr.lower (system h)) "windows"
  then String "C" (String ":" (String PyStr.backslash ""))
  else "/".

(** The request [_request_json] hands to the session. *)
Definition request_for (self : MachineMonApiClient) (method path : string)
    (headers : option (gmap string string)) (json_body : option Payload.t)
  : aiohttp.Request :=
  {| aiohttp.method := method;
     aiohttp.url := _base_url self +:+ path;
     aiohttp.headers :=
       match headers with
       | Some h => h ∪ {[ "Accept" := "application/json" ]}
       | None => {[ "Accept" := "application/json" ]}
       end;
     aiohttp.json := json_body;
     aiohttp.timeout_total := 15 |}.

Definition checkin_exchange (self : MachineMonApiClient)
    (payload : Payload.t) (client_password : string) : aiohttp.exchange :=
  _session self
    (request_for self "POST" "/api/v1/checkin"
       (Some {[ "X-Client-Password" := client_password ]}) (Some payload)).

Definition health_exchange (self : MachineMonApiClient) : aiohttp.exchange :=
  _session self (request_for self "GET" "/healthz" None None).

(** A failure of the transport: [aiohttp.ClientError] or a timeout. *)
Definition transport_error (e : exn) : bool :=
  isinstance e ClientError || isinstance e TimeoutError.

Definition http_error_message (r : aiohttp.ClientResponse) : string :=
  "HTTP " +:+ pretty (aiohttp.status r) +:+ " from MachineMon API: "
  +:+ PyStr.take 200 (aiohttp.text r).

(** A session that answers every request with the same response. *)
Definition answering (status : Z) (text : string) (body : aiohttp.decoded)
  : aiohttp.ClientSession :=
  fun _ => aiohttp.Responds
             {| aiohttp.status := status; aiohttp.text := text;
                aiohttp.body_json := body |}.

(** A session on which every request fails with [e]. *)
Definition failing (e : exn) : aiohttp.ClientSession :=
  fun _ => aiohttp.Fails e.

Definition sample_data : gmap string conf_value :=
  {[ CONF_COLLECTION_URL := CStr "https://mm.example.org";
     CONF_PASSWORD := CStr "hunter2";
     CONF_VERIFY_SSL := CBool true;
     CONF_CLIENT_ID := CStr "local-abc" ]}.

Definition sample_client (session : aiohttp.ClientSession) : MachineMonApiClient :=
  MachineMonApiClient__init__ session "https://mm.example.org/".

(** A runtime as [__init__] leaves it for [sample_data]. *)
Definition sample_runtime (session : aiohttp.ClientSession) : MachineMonRuntime :=
  {| _api := sample_client session;
     _session_id := "6f1c2a0e-0000-4000-8000-000000000001";
     _client_id := "local-abc";
     _password := "hunter2";
     _lock := false;
     _unsub := false |}.

Definition sample_state (session : aiohttp.ClientSession) : State :=
  {| self := sample_runtime session; entry_data := sample_data; effects := [] |}.

Definition sample_host : Host :=
  host_reporting [("lo", [nic "127.0.0.1"]); ("eth0", [nic "192.168.1.10"])].

(** The payload an attempt started in [st] on host [h] sends. *)
Definition payload_of (h : Host) (st : State) : Payload.t :=
  _build_checkin_payload (_client_id (self st)) (_session_id (self st)) h.

(** The attempt that took [st] to [st'] left the identifier, the config
    entry and the effects as they were. *)
Definition unchanged (st st' : State) : Prop :=
  _client_id (self st') = _client_id (self st)
  ∧ entry_data st' = entry_data st
  ∧ effects st' = effects st.

(** The attempt that took [st] to [st'] adopted [s]: in memory, in the
    config entry, and through exactly one more [async_update_entry]. *)
Definition adopted (s : string) (st st' : State) : Prop :=
  _client_id (self st') = s
  ∧ entry_data st' = <[ CONF_CLIENT_ID := CStr s ]> (entry_data st)
  ∧ effects st'
    = effects st ++ [UpdateEntry (<[ CONF_CLIENT_ID := CStr s ]> (entry_data st))].

(** The decoded values that [x or ""] replaces by [""]. *)
Definition falsy (v : json.value) : Prop :=
  v = json.JNull ∨ v = json.JBool false ∨ v = json.JInt 0
  ∨ (∃ f text, v = json.JFloat f text ∧ PrimFloat.eqb f 0%float = true)
  ∨ v = json.JStr "" ∨ v = json.JArr [] ∨ v = json.JObj [].

(** The number of attempts between acquiring the lock and releasing it. *)
Fixpoint flying (ts : list task) : nat :=
  match ts with
  | [] => 0
  | t :: ts' => (if in_flight t then 1 else 0) + flying ts'
  end.

(** The loop state an attempt-free skip of task [i] leaves. *)
Definition skipped (i : nat) (w : Loop) : Loop :=
  {| state := state w;
     tasks := <[ i := Done (Returns tt) ]> (tasks w);
     timers := timers w |}.

(** The lock is held exactly while one attempt is under way. *)
Definition guard_inv (w : Loop) : Prop :=
  flying (tasks w) = if _lock (self (state w)) then 1 else 0.

(** Start, one timer tick, and both tasks run to their first await. *)
Definition sample_events : list event := [Start; Tick; Run 0; Run 1].

(** ** More names used in the statements *)

(** [s[0]] and [s[-1]], when [s] is not empty. *)
Definition first_char (s : string) : option ascii :=
  match s with
  | EmptyString => None
  | String c _ => Some c
  end.

Fixpoint last_char (s : string) : option ascii :=
  match s with
  | EmptyString => None
  | String c EmptyString => Some c
  | String _ s' => last_char s'
  end.

(** [c * n] *)
Fixpoint repeat_char (c : ascii) (n : nat) : string :=
  match n with
  | O => EmptyString
  | S n' => String c (repeat_char c n')
  end.

(** What [lstrip] and [lstrip_char] do, for any set [p] of characters, and
    the same from the right. *)
Fixpoint ldrop (p : ascii -> bool) (s : string) : string :=
  match s with
  | String c s' => if p c then ldrop p s' else s
  | EmptyString => EmptyString
  end.

Definition rdrop (p : ascii -> bool) (s : string) : string :=
  String.rev (ldrop p (String.rev s)).

(** The config entry of [st] agrees with the runtime object on the
    identifier and with [data] on every other key. *)
Definition synced (data : gmap string conf_value) (st : State) : Prop :=
  (∃ v, entry_data st !! CONF_CLIENT_ID = Some v
        ∧ conf_str v = _client_id (self st))
  ∧ ∀ k, k ≠ CONF_CLIENT_ID → entry_data st !! k = data !! k.

(** The identifiers a task in flight took, or built its payload from, are
    the ones in [st]. *)
Definition carries_ids (st : State) (t : task) : Prop :=
  match t with
  | Building client_id session_id =>
      client_id = _client_id (self st) ∧ session_id = _session_id (self st)
  | Requesting payload =>
      Payload.client_id payload = _client_id (self st)
      ∧ Payload.session_id payload = _session_id (self st)
  | Created | Done _ => True
  end.

(** [async_start] is called only while no timer handle is held, along the
    whole run of [evs] from [w]. *)
Fixpoint disciplined (evs : list event) (w : Loop) : bool :=
  match evs with
  | [] => true
  | ev :: evs' =>
      match ev with
      | Start => negb (_unsub (self (state w)))
      | _ => true
      end
      && match step ev w with
         | Some w' => disciplined evs' w'
         | None => true
         end
  end.

(** The events that resume one task. *)
Definition task_event (ev : event) : bool :=
  match ev with
  | Run _ | Built _ _ | Responded _ _ => true
  | Start | Stop | Tick => false
  end.

(** The host reports [addr] on some interface. *)
Definition reported (h : Host) (addr : psutil.snicaddr) : Prop :=
  ∃ name if_addrs, (name, if_addrs) ∈ net_if_addrs h ∧ addr ∈ if_addrs.

(** The host reports an address whose trimmed text is [text]. *)
Definition reports_text (h : Host) (text : string) : Prop :=
  ∃ addr, reported h addr ∧ PyStr.strip (psutil.address addr) = text.

(** The host reports an address that puts [s] into the payload. *)
Definition lists_address (h : Host) (s : string) : Prop :=
  ∃ addr, reported h addr ∧ contributes addr s.

(** Two hosts answer the builder's calls alike, as far as the builder keeps
    the answers: the system and machine names up to letter case, the usage
    of the disk each one is asked for, the addresses up to what
    [_interface_ips] makes of them. *)
Definition same_readings (h1 h2 : Host) : Prop :=
  gethostname h1 = gethostname h2
  ∧ PyStr.lower (system h1) = PyStr.lower (system h2)
  ∧ PyStr.lower (machine h1) = PyStr.lower (machine h2)
  ∧ virtual_memory h1 = virtual_memory h2
  ∧ disk_usage h1 (disk_path h1) = disk_usage h2 (disk_path h2)
  ∧ cpu_percent h1 = cpu_percent h2
  ∧ ∀ s, lists_address h1 s ↔ lists_address h2 s.

(** A session that answers the POST requests and refuses the others. *)
Definition answering_posts (status : Z) (text : string) (body : aiohttp.decoded)
  : aiohttp.ClientSession :=
  fun req =>
    if String.eqb (aiohttp.method req) "POST"
    then aiohttp.Responds {| aiohttp.status := status; aiohttp.text := text;
                             aiohttp.body_json := body |}
    else aiohttp.Fails (Exn ClientError "Connection refused").

(** ** [config_flow] *)

(** The input of the user step, as the step's [data_schema] admits it:
    [collection_url] and [password] are required strings, [verify_ssl] is a
    boolean that the schema fills with [True] when it is left out. *)
Module UserInput.
Record t : Type := {
  collection_url : string;
  password : string;
  verify_ssl : bool
}.
End UserInput.

(** [dict(user_input)] *)
Definition dict_of_user_input (u : UserInput.t) : gmap string conf_value :=
  {[ CONF_COLLECTION_URL := CStr (UserInput.collection_url u);
     CONF_PASSWORD := CStr (UserInput.password u);
     CONF_VERIFY_SSL := CBool (UserInput.verify_ssl u) ]}.

(** What the flow takes from its surroundings. *)
Record FlowEnv : Type := {
  flow_client_uuid4 : string;          (* the [uuid.uuid4()] of [async_step_user] *)
  flow_session_uuid4 : string;         (* the [uuid.uuid4()] of [_validate_input] *)
  flow_gethostname : string;           (* [socket.gethostname()] *)
  flow_get_session : conf_value -> aiohttp.ClientSession;
                                       (* [async_get_clientsession(hass, verify_ssl=...)] *)
  flow_configured : gset string;       (* unique ids of the entries that exist *)
  flow_urlsplit_hostname : string -> outcome (option string)
                                       (* [urlsplit(url).hostname] *)
}.

(** [_normalize_url] *)
Definition _normalize_url (url : string) : string :=
  PyStr.rstrip_char "/" (PyStr.strip url).

(** [_entry_title], given [urlsplit(url).hostname]. *)
Definition _entry_title (hostname : option string) (url : string) : string :=
  let host :=
    match hostname with
    | Some h => if PyStr.truthy h then h else url
    | None => url
    end in
  "MachineMon Client (" +:+ host +:+ ")".

(** How [_validate_input] ends. *)
Inductive validation : Type :=
| Validated
| RaisesInvalidAuth (cause : exn)      (* raise InvalidAuth from err *)
| RaisesCannotConnect (cause : exn)    (* raise CannotConnect from err *)
| RaisesUncaught (err : exn)           (* an exception no clause names *)
| RaisesMalformed.                     (* KeyError or AttributeError on [data] *)

(** The two [except] clauses of [_validate_input]. *)
Definition validation_of_error (err : exn) : validation :=
  if isinstance err MachineMonAuthError then RaisesInvalidAuth err
  else if isinstance err MachineMonConnectionError
          || isinstance err MachineMonApiError then RaisesCannotConnect err
  else RaisesUncaught err.

(** The payload literal of [_validate_input]. *)
Definition validation_payload (hostname client_id session_id : string) : Payload.t :=
  {| Payload.hostname := hostname;
     Payload.os := "homeassistant";
     Payload.arch := "unknown";
     Payload.client_version := "ha-integration-0.1.0";
     Payload.client_id := client_id;
     Payload.session_id := session_id;
     Payload.interface_ips := [];
     Payload.metrics :=
       {| cpu_pct := 0; mem_pct := 0; mem_total_bytes := 0; mem_used_bytes := 0;
          disk_pct := 0; disk_total_bytes := 0; disk_used_bytes := 0 |};
     Payload.processes := [];
     Payload.checks := [] |}.

(** [_validate_input] *)
Definition _validate_input (env : FlowEnv) (data : gmap string conf_value)
  : validation :=
  let session :=
    flow_get_session env (default (CBool true) (data !! CONF_VERIFY_SSL)) in
  match data !! CONF_COLLECTION_URL with
  | Some (CStr url) =>
      let client := MachineMonApiClient__init__ session url in
      match async_health_check client with
      | Raises err => validation_of_error err
      | Returns _ =>
          match data !! CONF_CLIENT_ID, data !! CONF_PASSWORD with
          | Some (CStr client_id), Some (CStr password) =>
              match async_checkin client
                      (validation_payload (flow_gethostname env) client_id
                                          (flow_session_uuid4 env))
                      password with
              | Raises err => validation_of_error err
              | Returns _ => Validated
              end
          | _, _ => RaisesMalformed
          end
      end
  | _ => RaisesMalformed
  end.

(** How one call of [async_step_user] ends. *)
Inductive flow_result : Type :=
| ShowForm (errors : gmap string string)
| CreateEntry (unique_id title : string) (data : gmap string conf_value)
| Abort (reason : string)              (* [_abort_if_unique_id_configured] *)
| FlowRaises (err : exn).

(** The [data] that [async_step_user] builds from the input. *)
Definition flow_data (env : FlowEnv) (u : UserInput.t) : gmap string conf_value :=
  <[ CONF_CLIENT_ID := CStr (flow_client_uuid4 env) ]>
    (<[ CONF_COLLECTION_URL := CStr (_normalize_url (UserInput.collection_url u)) ]>
       (dict_of_user_input u)).

(** [MachineMonConfigFlow.async_step_user] *)
Definition async_step_user (env : FlowEnv) (user_input : option UserInput.t)
  : flow_result :=
  match user_input with
  | None => ShowForm ∅
  | Some u =>
      let data := flow_data env u in
      let url := _normalize_url (UserInput.collection_url u) in
      let unique_id := PyStr.lower url in
      if bool_decide (unique_id ∈ flow_configured env) then Abort "already_configured"
      else
        match _validate_input env data with
        | RaisesCannotConnect _ => ShowForm {[ "base" := "cannot_connect" ]}
        | RaisesInvalidAuth _ => ShowForm {[ "base" := "invalid_auth" ]}
        | RaisesUncaught _ | RaisesMalformed => ShowForm {[ "base" := "unknown" ]}
        | Validated =>
            match flow_urlsplit_hostname env url with
            | Raises err => FlowRaises err
            | Returns hostname => CreateEntry unique_id (_entry_title hostname url) data
            end
        end
  end.

(** ** [__init__]: setting an entry up and unloading it *)

Definition RUNTIME : string := "runtime".

(** [MachineMonRuntime.async_start] and [async_stop] on the loop of one
    runtime. *)
Definition async_start (w : Loop) : Loop :=
  {| state := set_unsub true (state w);
     tasks := tasks w ++ [Created];
     timers := S (timers w) |}.

Definition async_stop (w : Loop) : Loop :=
  if _unsub (self (state w)) then
    {| state := set_unsub false (state w);
       tasks := tasks w;
       timers := pred (timers w) |}
  else w.

(** [async_setup_entry]; [None] stands for the [KeyError] (or the
    [AttributeError] of a URL that is not a string) of an entry whose data
    lacks what the runtime needs. *)
Definition async_setup_entry
    (get_session : conf_value -> aiohttp.ClientSession) (uuid4 : string)
    (entry_id : string) (data : gmap string conf_value)
    (hass_data : gmap string (gmap string (gmap string Loop)))
  : option (gmap string (gmap string (gmap string Loop))) :=
  let session := get_session (default (CBool true) (data !! CONF_VERIFY_SSL)) in
  match data !! CONF_COLLECTION_URL with
  | Some (CStr url) =>
      let api := MachineMonApiClient__init__ session url in
      match MachineMonRuntime__init__ data api uuid4 with
      | Some runtime =>
          let domain := default ∅ (hass_data !! DOMAIN) in
          Some (<[ DOMAIN :=
                     <[ entry_id := {[ RUNTIME := async_start (boot runtime data) ]} ]>
                       domain ]> hass_data)
      | None => None
      end
  | _ => None
  end.

(** [async_unload_entry]: the new [hass.data] and the runtime it stopped;
    [None] stands for the [KeyError] of an entry that was not set up. *)
Definition async_unload_entry (entry_id : string)
    (hass_data : gmap string (gmap string (gmap string Loop)))
  : option (gmap string (gmap string (gmap string Loop)) * Loop) :=
  match hass_data !! DOMAIN with
  | Some domain =>
      match domain !! entry_id with
      | Some slot =>
          match slot !! RUNTIME with
          | Some runtime =>
              let domain := delete entry_id domain in
              Some (if bool_decide (domain = ∅) then delete DOMAIN hass_data
                    else <[ DOMAIN := domain ]> hass_data,
                    async_stop runtime)
          | None => None
          end
      | None => None
      end
  | None => None
  end.

(** The client and the payload [_validate_input] uses for the data that
    [async_step_user] builds from [u]. *)
Definition flow_client (env : FlowEnv) (u : UserInput.t) : MachineMonApiClient :=
  MachineMonApiClient__init__
    (flow_get_session env (CBool (UserInput.verify_ssl u)))
    (_normalize_url (UserInput.collection_url u)).

Definition flow_payload (env : FlowEnv) : Payload.t :=
  validation_payload (flow_gethostname env) (flow_client_uuid4 env)
                     (flow_session_uuid4 env).

(** The [errors["base"]] that [async_step_user] shows for an exception of
    [_validate_input] that began as [err]. *)
Definition error_code (err : exn) : string :=
  if isinstance err MachineMonAuthError then "invalid_auth"
  else if isinstance err MachineMonApiError then "cannot_connect"
  else "unknown".

(** The runtime registered for [entry_id], when there is one. *)
Definition registered (entry_id : string)
    (hass_data : gmap string (gmap string (gmap string Loop))) : option Loop :=
  match hass_data !! DOMAIN with
  | Some domain =>
      match domain !! entry_id with
      | Some slot => slot !! RUNTIME
      | None => None
      end
  | None => None
  end.

(** A flow environment for concrete runs. *)
Definition sample_env (session : aiohttp.ClientSession) : FlowEnv :=
  {| flow_client_uuid4 := "0b1c2d3e-0000-4000-8000-00000000000a";
     flow_session_uuid4 := "0b1c2d3e-0000-4000-8000-00000000000b";
     flow_gethostname := "ha-box";
     flow_get_session := fun _ => session;
     flow_configured := ∅;
     flow_urlsplit_hostname := fun _ => Returns (Some "mm.example.org") |}.

Definition sample_input : UserInput.t :=
  {| UserInput.collection_url := " https://mm.example.org// ";
     UserInput.password := "hunter2";
     UserInput.verify_ssl := true |}.

(** * Properties *)

(** ** Strings *)

Lemma take_length (n : nat) (s : string) : String.length (PyStr.take n s) <= n.
Proof.
  revert s. induction n as [|n IH]; intros [|c s]; simpl; try lia.
  specialize (IH s). lia.
Qed.

Lemma partition_head_clean (c : ascii) (s : string) :
  PyStr.partition c (PyStr.split1_head c s) = (PyStr.split1_head c s, false, "").
Proof.
  unfold PyStr.split1_head.
  induction s as [|d s IH]; simpl; [reflexivity|].
  destruct (Ascii.eqb c d) eqn:E; simpl; [reflexivity|].
  destruct (PyStr.partition c s) as [[a found] b]; simpl in *.
  rewrite E, IH. reflexivity.
Qed.

Lemma elem_of_sorted (xs : gset string) (s : string) :
  s ∈ PyStr.sorted xs ↔ s ∈ xs.
Proof.
  unfold PyStr.sorted. rewrite merge_sort_Permutation. apply elem_of_elements.
Qed.

Lemma sorted_Sorted (xs : gset string) : Sorted String.le (PyStr.sorted xs).
Proof. apply (Sorted_merge_sort String.le). Qed.

Lemma sorted_NoDup (xs : gset string) : NoDup (PyStr.sorted xs).
Proof.
  unfold PyStr.sorted. rewrite merge_sort_Permutation. apply NoDup_elements.
Qed.

(** ** Interface addresses *)

Lemma ip_address_empty : ipaddress.ip_address "" = None.
Proof. reflexivity. Qed.

Lemma add_address_elem (addresses : gset string) (addr : psutil.snicaddr) (s : string) :
  s ∈ add_address addresses addr ↔ s ∈ addresses ∨ contributes addr s.
Proof.
  unfold add_address, contributes, parser_input.
  destruct (PyStr.strip (psutil.address addr)) as [|c raw] eqn:Hraw; simpl PyStr.truthy; cbn [negb].
  - split; [auto|]. intros [H|(p & Hp & _)]; [done|].
    simpl in Hp. discriminate.
  - set (text := if PyStr.startswith (String c raw) "fe80:" then _ else _).
    destruct (ipaddress.ip_address text) as [parsed|] eqn:Hparse.
    + destruct (ipaddress.is_loopback parsed) eqn:Hloop.
      * split; [auto|]. intros [H|(p & Hp & Hl & _)]; [done|]. congruence.
      * rewrite elem_of_union, elem_of_singleton. split.
        -- intros [->|H]; [right; eauto|auto].
        -- intros [H|(p & Hp & Hl & ->)]; [auto|]. left. congruence.
    + split; [auto|]. intros [H|(p & Hp & _)]; [done|]. discriminate.
Qed.

Lemma foldl_add_address_elem (if_addrs : list psutil.snicaddr)
      (addresses : gset string) (s : string) :
  s ∈ foldl add_address addresses if_addrs
  ↔ s ∈ addresses ∨ ∃ addr, addr ∈ if_addrs ∧ contributes addr s.
Proof.
  revert addresses. induction if_addrs as [|a l IH]; intros addresses; simpl.
  - split; [auto|]. intros [H|(addr & Hin & _)]; [done|]. inversion Hin.
  - rewrite IH, add_address_elem. split.
    + intros [[H|H]|(addr & Hin & H)]; [auto| |].
      * right. exists a. split; [left|done].
      * right. exists addr. split; [by right|done].
    + intros [H|(addr & Hin & H)]; [auto|].
      apply elem_of_cons in Hin as [->|Hin]; [auto|].
      right. eauto.
Qed.

Lemma foldl_interfaces_elem (ifs : list (list psutil.snicaddr))
      (addresses : gset string) (s : string) :
  s ∈ foldl (fun acc if_addrs => foldl add_address acc if_addrs) addresses ifs
  ↔ s ∈ addresses
    ∨ ∃ if_addrs addr, if_addrs ∈ ifs ∧ addr ∈ if_addrs ∧ contributes addr s.
Proof.
  revert addresses. induction ifs as [|l ifs IH]; intros addresses; simpl.
  - split; [auto|]. intros [H|(l & addr & Hin & _)]; [done|]. inversion Hin.
  - rewrite IH, foldl_add_address_elem. split.
    + intros [[H|(addr & Hin & H)]|(l' & addr & Hl & Hin & H)]; [auto| |].
      * right. exists l, addr. split; [left|done].
      * right. exists l', addr. split; [by right|done].
    + intros [H|(l' & addr & Hl & Hin & H)]; [auto|].
      apply elem_of_cons in Hl as [->|Hl]; [left; right; eauto|].
      right. eauto.
Qed.

Lemma fe80_input_unscoped (addr : psutil.snicaddr) (parsed : ipaddress.address) :
  PyStr.startswith (PyStr.strip (psutil.address addr)) "fe80:" = true →
  ipaddress.ip_address (parser_input addr) = Some parsed →
  ipaddress.scope_id parsed = None.
Proof.
  unfold parser_input. intros ->. unfold ipaddress.ip_address.
  destruct (ipaddress.ipv4_int _); [intros [= <-]; reflexivity|].
  unfold ipaddress.ipv6_parse. rewrite partition_head_clean.
  destruct (PyStr.contains "/" _); [discriminate|]. simpl.
  destruct (ipaddress.ipv6_int _); [|discriminate].
  intros [= <-]. reflexivity.
Qed.

(** C4, as the code has it. The [interface_ips] of a built payload are
    ascending and free of duplicates; they are exactly the compressed forms
    of the reported addresses that parse and are not loopback, so an address
    that does not parse is passed over and the build never fails; and an
    address whose trimmed text starts with [fe80:] is parsed without its
    zone suffix. *)
Theorem interface_ips_sorted_canonical (client_id session_id : string) (h : Host) :
  let ips := Payload.interface_ips (_build_checkin_payload client_id session_id h) in
  Sorted String.le ips
  ∧ NoDup ips
  ∧ (∀ s, s ∈ ips ↔
          ∃ name if_addrs addr parsed,
            (name, if_addrs) ∈ net_if_addrs h ∧ addr ∈ if_addrs
            ∧ ipaddress.ip_address (parser_input addr) = Some parsed
            ∧ ipaddress.is_loopback parsed = false
            ∧ s = ipaddress.compressed parsed)
  ∧ (∀ addr parsed,
        PyStr.startswith (PyStr.strip (psutil.address addr)) "fe80:" = true →
        ipaddress.ip_address (parser_input addr) = Some parsed →
        ipaddress.scope_id parsed = None
        ∧ parser_input addr
          = PyStr.split1_head "%" (PyStr.strip (psutil.address addr))).
Proof.
  cbn zeta. cbn [_build_checkin_payload Payload.interface_ips].
  unfold _interface_ips. repeat split.
  - apply sorted_Sorted.
  - apply sorted_NoDup.
  - rewrite elem_of_sorted, foldl_interfaces_elem.
    intros [H|(l & addr & Hl & Hin & p & Hp & Hloop & ->)]; [set_solver|].
    apply list_elem_of_fmap in Hl as ([name l'] & -> & Hl).
    exists name, l', addr, p. auto.
  - intros (name & l & addr & p & Hl & Hin & Hp & Hloop & ->).
    rewrite elem_of_sorted, foldl_interfaces_elem. right.
    exists l, addr. split; [|split; [done|exists p; auto]].
    apply list_elem_of_fmap. exists (name, l). auto.
  - eapply fe80_input_unscoped; eassumption.
  - unfold parser_input. rewrite H. reflexivity.
Qed.

Lemma interface_ips_sorted_canonical_witness :
  let h := host_reporting
             [("lo", [nic "127.0.0.1"; nic "::1"]);
              ("eth0", [nic "192.168.1.10"; nic " fe80::1%eth0"; nic "not-an-ip"])] in
  "fe80::1" ∈ Payload.interface_ips (_build_checkin_payload "local-abc" "s-1" h)
  ∧ ipaddress.scope_id (ipaddress.IPv6Address 338288524927261089654018896841347694593 None) = None.
Proof.
  intros h.
  pose proof (interface_ips_sorted_canonical "local-abc" "s-1" h) as (_ & _ & Hmem & Hzone).
  split.
  - apply Hmem.
    exists "eth0", [nic "192.168.1.10"; nic " fe80::1%eth0"; nic "not-an-ip"],
           (nic " fe80::1%eth0"),
           (ipaddress.IPv6Address 338288524927261089654018896841347694593 None).
    repeat split.
    + right; left.
    + right; left.
  - apply (Hzone (nic " fe80::1%eth0")); reflexivity.
Defined.

(** C4 as stated fails: an address in [fe80::/10] whose text does not begin
    with [fe80:] keeps its zone suffix in the payload. *)
Lemma interface_ips_zone_kept_outside_fe80 :
  ¬ (∀ (h : Host) (s : string) (parsed : ipaddress.address),
        s ∈ Payload.interface_ips (_build_checkin_payload "local-abc" "s-1" h) →
        ipaddress.ip_address s = Some parsed →
        ipaddress.is_link_local parsed = true →
        ipaddress.scope_id parsed = None).
Proof.
  intros H.
  specialize (H (host_reporting [("eth0", [nic "fe90::1%eth0"])])
                "fe90::1%eth0"
                (ipaddress.IPv6Address 338371601676997646896075384782615216129 (Some "eth0"))).
  assert (Some "eth0" = None :> option string) as Habs; [|discriminate].
  apply H; [|reflexivity|reflexivity].
  vm_compute. left.
Qed.

(** ** The payload builder *)

Lemma interface_ips_elem (h : Host) (s : string) :
  s ∈ _interface_ips h ↔ ∃ addr, reported h addr ∧ contributes addr s.
Proof.
  unfold _interface_ips, reported.
  rewrite elem_of_sorted, foldl_interfaces_elem. split.
  - intros [H|(l & addr & Hl & Hin & Hc)]; [set_solver|].
    apply list_elem_of_fmap in Hl as ([name l'] & -> & Hl). eauto 6.
  - intros (addr & (name & l & Hl & Hin) & Hc). right.
    exists l, addr. split; [|done].
    apply list_elem_of_fmap. by exists (name, l).
Qed.

Lemma interface_ips_ext (h1 h2 : Host) :
  (∀ s, s ∈ _interface_ips h1 ↔ s ∈ _interface_ips h2) →
  _interface_ips h1 = _interface_ips h2.
Proof.
  intros Hsame.
  apply (Sorted_unique String.le); try apply sorted_Sorted.
  apply NoDup_Permutation; [apply sorted_NoDup..|exact Hsame].
Qed.

Lemma svmem_eq (a b : psutil.svmem.t) :
  psutil.svmem.percent a = psutil.svmem.percent b →
  psutil.svmem.total a = psutil.svmem.total b →
  psutil.svmem.used a = psutil.svmem.used b → a = b.
Proof. destruct a, b; simpl; by intros -> -> ->. Qed.

Lemma sdiskusage_eq (a b : psutil.sdiskusage.t) :
  psutil.sdiskusage.percent a = psutil.sdiskusage.percent b →
  psutil.sdiskusage.total a = psutil.sdiskusage.total b →
  psutil.sdiskusage.used a = psutil.sdiskusage.used b → a = b.
Proof. destruct a, b; simpl; by intros -> -> ->. Qed.

(** The payload as a function of the host is what the program returns when
    the host answers its calls. *)
Lemma run_build_checkin_payload (client_id session_id : string) (h : Host) :
  HostIO.run h (HostIO._build_checkin_payload client_id session_id)
  = _build_checkin_payload client_id session_id h.
Proof. reflexivity. Qed.

Lemma build_checkin_payload_inj
    (client_id session_id client_id' session_id' : string) (h h' : Host) :
  _build_checkin_payload client_id' session_id' h'
  = _build_checkin_payload client_id session_id h
  ↔ client_id' = client_id ∧ session_id' = session_id ∧ same_readings h' h.
Proof.
  unfold same_readings, lists_address, disk_path. split.
  - intros Heq.
    pose proof (f_equal Payload.interface_ips Heq) as Hips.
    pose proof (f_equal Payload.metrics Heq) as Hm.
    injection Heq as Hname Hos Harch Hcid Hsid _ _.
    cbn [Payload.interface_ips Payload.metrics _build_checkin_payload] in Hips, Hm.
    injection Hm as Hcpu Hmp Hmt Hmu Hdp Hdt Hdu.
    split_and!; try done.
    + by apply svmem_eq.
    + by apply sdiskusage_eq.
    + intros s. rewrite <- !interface_ips_elem. by rewrite Hips.
  - intros (-> & -> & Hname & Hos & Harch & Hvm & Hdisk & Hcpu & Hips).
    unfold _build_checkin_payload.
    rewrite Hname, Hvm, Hdisk, Hcpu, Hos, Harch.
    rewrite (interface_ips_ext h' h); [reflexivity|].
    intros s. rewrite !interface_ips_elem. apply Hips.
Qed.

(** C8, as the code has it. The builder is given [client_id] and
    [session_id] and nothing else. Every run of it calls the host eight
    times, in this order and for nothing else: the virtual memory, the
    system name, the usage of the disk at [C:\] when that name in lower
    case is ["windows"] and at [/] otherwise, the host name, the system
    name again, the machine name, the interface addresses, the CPU
    percentage. What it returns is fixed by the two arguments and the
    answers, and carries all of them: two runs return the same payload
    exactly when their arguments are the same and the hosts gave the same
    readings. *)
Theorem build_checkin_payload_from_host_calls
    (client_id session_id : string) (h : Host) :
  let program := HostIO._build_checkin_payload client_id session_id in
  HostIO.calls h program
  = [HostIO.psutil_virtual_memory;
     HostIO.platform_system;
     HostIO.psutil_disk_usage (disk_path h);
     HostIO.socket_gethostname;
     HostIO.platform_system;
     HostIO.platform_machine;
     HostIO.psutil_net_if_addrs;
     HostIO.psutil_cpu_percent]
  ∧ HostIO.run h program = _build_checkin_payload client_id session_id h
  ∧ Payload.client_id (HostIO.run h program) = client_id
  ∧ Payload.session_id (HostIO.run h program) = session_id
  ∧ ∀ (client_id' session_id' : string) (h' : Host),
      HostIO.run h' (HostIO._build_checkin_payload client_id' session_id')
      = HostIO.run h program
      ↔ client_id' = client_id ∧ session_id' = session_id ∧ same_readings h' h.
Proof.
  intros program. split_and!; try reflexivity.
  intros client_id' session_id' h'. subst program.
  rewrite !run_build_checkin_payload. apply build_checkin_payload_inj.
Qed.

(** C8 as stated fails: the builder does perform I/O of its own. Given
    nothing but the two identifiers, one run on the sample host makes
    these eight calls to [psutil], [platform] and [socket]. *)
Lemma build_checkin_payload_calls_host :
  let program := HostIO._build_checkin_payload "local-abc" "s-1" in
  HostIO.calls sample_host program
  = [HostIO.psutil_virtual_memory;
     HostIO.platform_system;
     HostIO.psutil_disk_usage "/";
     HostIO.socket_gethostname;
     HostIO.platform_system;
     HostIO.platform_machine;
     HostIO.psutil_net_if_addrs;
     HostIO.psutil_cpu_percent]
  ∧ HostIO.calls sample_host program ≠ [].
Proof. split; [reflexivity|discriminate]. Qed.

(** ** The API client *)

Section request_json.

Variables (self : MachineMonApiClient) (method path : string)
          (headers : option (gmap string string))
          (json_body : option Payload.t).

Let x := _session self (request_for self method path headers json_body).

Ltac enter H :=
  intros H; subst x; unfold request_for in H;
  unfold _request_json; cbv zeta; rewrite H.

Lemma transport_error_not_api (e : exn) :
  transport_error e = true → isinstance e MachineMonApiError = false.
Proof. destruct e as [[] msg]; vm_compute; congruence. Qed.

Lemma request_json_transport (e : exn) :
  x = aiohttp.Fails e → transport_error e = true →
  _request_json self method path headers json_body
  = Raises (Exn MachineMonConnectionError (exc_str e)).
Proof.
  enter H. intros Ht.
  rewrite (transport_error_not_api e Ht).
  unfold transport_error in Ht. rewrite Ht. reflexivity.
Qed.

Lemma request_json_401 (r : aiohttp.ClientResponse) :
  x = aiohttp.Responds r → aiohttp.status r = 401%Z →
  _request_json self method path headers json_body
  = Raises (Exn MachineMonAuthError "Invalid client password").
Proof. enter H. intros ->. reflexivity. Qed.

Lemma request_json_error_status (r : aiohttp.ClientResponse) :
  x = aiohttp.Responds r →
  (400 ≤ aiohttp.status r)%Z → aiohttp.status r ≠ 401%Z →
  _request_json self method path headers json_body
  = Raises (Exn MachineMonApiError (http_error_message r)).
Proof.
  enter H. intros Hge Hne.
  destruct (Z.eqb_spec (aiohttp.status r) 401); [done|].
  destruct (Z.leb_spec 400 (aiohttp.status r)); [|lia].
  reflexivity.
Qed.

Lemma request_json_object (r : aiohttp.ClientResponse) (members : dict) :
  x = aiohttp.Responds r → (aiohttp.status r < 400)%Z →
  aiohttp.body_json r = aiohttp.Decodes (json.JObj members) →
  _request_json self method path headers json_body = Returns members.
Proof.
  enter H. intros Hlt Hbody.
  destruct (Z.eqb_spec (aiohttp.status r) 401); [lia|].
  destruct (Z.leb_spec 400 (aiohttp.status r)); [lia|].
  unfold aiohttp.json_. rewrite Hbody. reflexivity.
Qed.

Lemma request_json_not_object (r : aiohttp.ClientResponse) (v : json.value) :
  x = aiohttp.Responds r → (aiohttp.status r < 400)%Z →
  aiohttp.body_json r = aiohttp.Decodes v →
  (∀ members, v ≠ json.JObj members) →
  _request_json self method path headers json_body
  = Raises (Exn MachineMonApiError "Invalid response: expected JSON object").
Proof.
  enter H. intros Hlt Hbody Hv.
  destruct (Z.eqb_spec (aiohttp.status r) 401); [lia|].
  destruct (Z.leb_spec 400 (aiohttp.status r)); [lia|].
  unfold aiohttp.json_. rewrite Hbody.
  destruct v; try reflexivity. by destruct (Hv members).
Qed.

Lemma request_json_not_json (r : aiohttp.ClientResponse) (msg : string) :
  x = aiohttp.Responds r → (aiohttp.status r < 400)%Z →
  aiohttp.body_json r = aiohttp.NotJson msg →
  _request_json self method path headers json_body
  = Raises (Exn JSONDecodeError msg).
Proof.
  enter H. intros Hlt Hbody.
  destruct (Z.eqb_spec (aiohttp.status r) 401); [lia|].
  destruct (Z.leb_spec 400 (aiohttp.status r)); [lia|].
  unfold aiohttp.json_. rewrite Hbody. reflexivity.
Qed.

(** Whatever a response leads to, it is not a connection error. *)
Lemma request_json_response_not_connection (r : aiohttp.ClientResponse) (e : exn) :
  x = aiohttp.Responds r →
  _request_json self method path headers json_body = Raises e →
  isinstance e MachineMonConnectionError = false.
Proof.
  enter H.
  destruct (aiohttp.status r =? 401)%Z; [intros [= <-]; reflexivity|].
  destruct (400 <=? aiohttp.status r)%Z; [intros [= <-]; reflexivity|].
  unfold aiohttp.json_.
  destruct (aiohttp.body_json r) as [v|msg]; cbn.
  - destruct v; cbn; intros [= <-]; reflexivity.
  - intros [= <-]. reflexivity.
Qed.

End request_json.

(** ** One attempt *)

Lemma attempt_unfold (h : Host) (st : State) :
  _lock (self st) = false →
  _async_checkin h st
  = checkin_complete
      (async_checkin (_api (self st)) (payload_of h st) (_password (self st)))
      (set_lock true st).
Proof.
  intros Hfree. unfold _async_checkin, checkin_enter. rewrite Hfree. reflexivity.
Qed.

Lemma attempt_skipped (h : Host) (st : State) :
  _lock (self st) = true → _async_checkin h st = (Returns tt, st).
Proof.
  intros Hheld. unfold _async_checkin, checkin_enter. rewrite Hheld. reflexivity.
Qed.

Lemma complete_raises_typed (e : exn) (st : State) :
  isinstance e MachineMonApiError = true →
  checkin_complete (Raises e) st
  = (Returns tt,
     set_lock false
       (log (if isinstance e MachineMonAuthError then ERROR else WARNING)
            (if isinstance e MachineMonAuthError
             then "MachineMon check-in rejected: invalid client password"
             else "MachineMon check-in failed: " +:+ exc_str e)
            st)).
Proof.
  intros Hapi. unfold checkin_complete.
  destruct (isinstance e MachineMonAuthError); [reflexivity|].
  rewrite Hapi. reflexivity.
Qed.

Lemma complete_raises_other (e : exn) (st : State) :
  isinstance e MachineMonApiError = false →
  checkin_complete (Raises e) st = (Raises e, set_lock false st).
Proof.
  intros Hapi. unfold checkin_complete.
  destruct (isinstance e MachineMonAuthError) eqn:Hauth.
  - destruct e as [[] msg]; vm_compute in Hapi, Hauth; congruence.
  - rewrite Hapi. reflexivity.
Qed.

Lemma complete_returns (response : dict) (st : State) :
  checkin_complete (Returns response) st
  = (Returns tt,
     set_lock false
       (if PyStr.truthy (server_client_id_of response)
           && negb (String.eqb (server_client_id_of response) (_client_id (self st)))
        then adopt (server_client_id_of response) st else st)).
Proof.
  unfold checkin_complete.
  destruct (PyStr.truthy _ && negb _); reflexivity.
Qed.

Lemma truthy_nonempty (s : string) : PyStr.truthy s = true ↔ s ≠ "".
Proof. destruct s; simpl; split; congruence. Qed.

(** What does hold of C9: an attempt whose call of the client fails with an
    instance of the API error class (the auth error, the connection error
    or the API error itself) returns normally, with the lock released, the
    identifier and the config entry as they were, and exactly one more log
    record: at error level for an auth error, at warning level otherwise. *)
Lemma checkin_absorbs_typed_errors (h : Host) (st : State) (e : exn) :
  _lock (self st) = false →
  async_checkin (_api (self st)) (payload_of h st) (_password (self st)) = Raises e →
  isinstance e MachineMonApiError = true →
  (_async_checkin h st).1 = Returns tt
  ∧ _lock (self (_async_checkin h st).2) = false
  ∧ _client_id (self (_async_checkin h st).2) = _client_id (self st)
  ∧ entry_data (_async_checkin h st).2 = entry_data st
  ∧ effects (_async_checkin h st).2
    = effects st
      ++ [if isinstance e MachineMonAuthError
          then Log ERROR "MachineMon check-in rejected: invalid client password"
          else Log WARNING ("MachineMon check-in failed: " +:+ exc_str e)]
  ∧ Forall (fun c => issubclass c MachineMonApiError = true)
           [MachineMonAuthError; MachineMonConnectionError; MachineMonApiError].
Proof.
  intros Hfree Hcall Hapi.
  rewrite (attempt_unfold h st Hfree), Hcall, (complete_raises_typed e _ Hapi).
  destruct (isinstance e MachineMonAuthError); cbn; repeat split;
    repeat constructor.
Qed.

(** C9 at the failing input, on every host and in every state. A response
    with a status below 400 whose body is not JSON makes the client raise
    [json.JSONDecodeError], which is not an instance of the API error
    class. The attempt has no clause for it: the exception leaves the
    attempt for the event loop, with the lock released, nothing logged, and
    the identifier and the config entry as they were. *)
Theorem attempt_propagates_decode_error
    (h : Host) (st : State) (r : aiohttp.ClientResponse) (msg : string) :
  _lock (self st) = false →
  checkin_exchange (_api (self st)) (payload_of h st) (_password (self st))
  = aiohttp.Responds r →
  (aiohttp.status r < 400)%Z →
  aiohttp.body_json r = aiohttp.NotJson msg →
  async_checkin (_api (self st)) (payload_of h st) (_password (self st))
  = Raises (Exn JSONDecodeError msg)
  ∧ isinstance (Exn JSONDecodeError msg) MachineMonApiError = false
  ∧ (_async_checkin h st).1 = Raises (Exn JSONDecodeError msg)
  ∧ _lock (self (_async_checkin h st).2) = false
  ∧ unchanged st (_async_checkin h st).2.
Proof.
  intros Hfree Hx Hlt Hbody.
  assert (async_checkin (_api (self st)) (payload_of h st) (_password (self st))
          = Raises (Exn JSONDecodeError msg)) as Hcall.
  { unfold async_checkin. eapply request_json_not_json; eassumption. }
  split; [exact Hcall|]. split; [reflexivity|].
  rewrite (attempt_unfold h st Hfree), Hcall.
  rewrite complete_raises_other by reflexivity.
  by split_and!.
Qed.

Lemma attempt_propagates_decode_error_witness :
  let msg := "Expecting value: line 1 column 1 (char 0)" in
  let st := sample_state (answering 200 "<html>OK</html>" (aiohttp.NotJson msg)) in
  (_async_checkin sample_host st).1 = Raises (Exn JSONDecodeError msg)
  ∧ effects (_async_checkin sample_host st).2 = [].
Proof.
  intros msg st.
  pose proof (attempt_propagates_decode_error sample_host st _ msg
                eq_refl eq_refl eq_refl eq_refl)
    as (_ & _ & Hraise & _ & _ & _ & Heff).
  split; [exact Hraise | exact Heff].
Defined.

(** C3. A response with status 401 makes [async_checkin] raise the auth
    error whatever its body holds, and the attempt that meets it changes
    neither the identifier nor the config entry and calls no update: its
    only effect is the error-level log record. *)
Theorem checkin_401_is_auth_error
    (h : Host) (st : State) (r : aiohttp.ClientResponse) :
  _lock (self st) = false →
  checkin_exchange (_api (self st)) (payload_of h st) (_password (self st))
  = aiohttp.Responds r →
  aiohttp.status r = 401%Z →
  async_checkin (_api (self st)) (payload_of h st) (_password (self st))
  = Raises (Exn MachineMonAuthError "Invalid client password")
  ∧ (_async_checkin h st).1 = Returns tt
  ∧ _client_id (self (_async_checkin h st).2) = _client_id (self st)
  ∧ entry_data (_async_checkin h st).2 = entry_data st
  ∧ effects (_async_checkin h st).2
    = effects st
      ++ [Log ERROR "MachineMon check-in rejected: invalid client password"].
Proof.
  intros Hfree Hx H401.
  assert (async_checkin (_api (self st)) (payload_of h st) (_password (self st))
          = Raises (Exn MachineMonAuthError "Invalid client password")) as Hcall.
  { unfold async_checkin. eapply request_json_401; eassumption. }
  split; [exact Hcall|].
  rewrite (attempt_unfold h st Hfree), Hcall.
  repeat split.
Qed.

Lemma checkin_401_is_auth_error_witness :
  let st := sample_state
              (answering 401 "{'client_id': 'srv-123'}"
                 (aiohttp.Decodes (json.JObj [("client_id", json.JStr "srv-123")]))) in
  _client_id (self (_async_checkin sample_host st).2) = "local-abc"
  ∧ entry_data (_async_checkin sample_host st).2 = sample_data.
Proof.
  intros st.
  pose proof (checkin_401_is_auth_error sample_host st _ eq_refl eq_refl eq_refl)
    as (_ & _ & Hid & Hdata & _).
  split; [exact Hid | exact Hdata].
Defined.

(** Every exception class that derives from the connection error or from
    the auth error derives from the API error, and none derives from both. *)
Lemma instance_of_subclass (e : exn) :
  (isinstance e MachineMonConnectionError = true
   → isinstance e MachineMonApiError = true)
  ∧ (isinstance e MachineMonAuthError = true
     → isinstance e MachineMonApiError = true)
  ∧ isinstance e MachineMonAuthError && isinstance e MachineMonConnectionError
    = false.
Proof. destruct e as [[] msg]; vm_compute; by split_and!. Qed.

(** C6, as the code has it. A transport failure of a check-in call (an
    [aiohttp.ClientError] or a timeout) is raised as the connection error,
    and no error that comes from a response is a connection error. The
    connection error and the auth error are both proper subclasses of the
    API error and neither is a subclass of the other: every connection
    error is an API error as well, no exception is both an auth error and a
    connection error, and the kinds are told apart by testing for the two
    subclasses before the base class. Status 401 gives the auth error
    although the status also meets the generic [>= 400] test. *)
Theorem error_taxonomy_nested
    (self : MachineMonApiClient) (payload : Payload.t) (client_password : string) :
  (∀ e, checkin_exchange self payload client_password = aiohttp.Fails e →
        transport_error e = true →
        async_checkin self payload client_password
        = Raises (Exn MachineMonConnectionError (exc_str e))
        ∧ isinstance (Exn MachineMonConnectionError (exc_str e))
                     MachineMonApiError = true
        ∧ isinstance (Exn MachineMonConnectionError (exc_str e))
                     MachineMonAuthError = false)
  ∧ (∀ r e, checkin_exchange self payload client_password = aiohttp.Responds r →
            async_checkin self payload client_password = Raises e →
            isinstance e MachineMonConnectionError = false)
  ∧ base_class MachineMonConnectionError = Some MachineMonApiError
  ∧ base_class MachineMonAuthError = Some MachineMonApiError
  ∧ issubclass MachineMonConnectionError MachineMonApiError = true
  ∧ issubclass MachineMonApiError MachineMonConnectionError = false
  ∧ issubclass MachineMonAuthError MachineMonApiError = true
  ∧ issubclass MachineMonApiError MachineMonAuthError = false
  ∧ issubclass MachineMonConnectionError MachineMonAuthError = false
  ∧ issubclass MachineMonAuthError MachineMonConnectionError = false
  ∧ (∀ e, (isinstance e MachineMonConnectionError = true
           → isinstance e MachineMonApiError = true)
          ∧ (isinstance e MachineMonAuthError = true
             → isinstance e MachineMonApiError = true)
          ∧ isinstance e MachineMonAuthError
            && isinstance e MachineMonConnectionError = false)
  ∧ (∀ r, checkin_exchange self payload client_password = aiohttp.Responds r →
          aiohttp.status r = 401%Z →
          (400 <=? aiohttp.status r)%Z = true
          ∧ async_checkin self payload client_password
            = Raises (Exn MachineMonAuthError "Invalid client password")).
Proof.
  split_and!; try done.
  - intros e Hx Ht. split_and!; try done. unfold async_checkin.
    eapply request_json_transport; eassumption.
  - intros r e Hx Hcall. unfold async_checkin in Hcall.
    eapply request_json_response_not_connection; eassumption.
  - apply instance_of_subclass.
  - intros r Hx H401. split; [by rewrite H401|].
    unfold async_checkin. eapply request_json_401; eassumption.
Qed.

Lemma error_taxonomy_nested_witness :
  let self := sample_client (failing (Exn ClientError "Cannot connect to host")) in
  async_checkin self (payload_of sample_host (sample_state (_session self))) "hunter2"
  = Raises (Exn MachineMonConnectionError "Cannot connect to host").
Proof.
  intros self.
  exact (proj1 (proj1 (error_taxonomy_nested self _ "hunter2")
                      (Exn ClientError "Cannot connect to host") eq_refl eq_refl)).
Defined.

(** C6 as stated fails: the connection error is not apart from the API
    error classes. The error a timed-out check-in raises is an instance of
    the API error class, and the attempt handles it in its clause for that
    class, with the warning. *)
Lemma connection_error_is_api_error :
  let self := sample_client (failing (Exn TimeoutError "")) in
  let st := sample_state (_session self) in
  async_checkin self (payload_of sample_host st) "hunter2"
  = Raises (Exn MachineMonConnectionError "")
  ∧ isinstance (Exn MachineMonConnectionError "") MachineMonApiError = true
  ∧ issubclass MachineMonConnectionError MachineMonApiError = true
  ∧ checkin_complete (Raises (Exn MachineMonConnectionError "")) st
    = (Returns tt, log WARNING "MachineMon check-in failed: " st).
Proof. intros self st. by split_and!. Qed.

(** C5, as the code has it. A health check fails with the connection error
    when the transport fails; a response is classified by its status as in
    any other request: 401 is the auth error, any other status from 400 up
    is the API error with the status and at most 200 characters of the body,
    and below 400 a JSON object is success and any other JSON value is the
    API error. *)
Theorem health_check_classified (self : MachineMonApiClient) :
  (∀ e, health_exchange self = aiohttp.Fails e → transport_error e = true →
        async_health_check self
        = Raises (Exn MachineMonConnectionError (exc_str e)))
  ∧ (∀ r, health_exchange self = aiohttp.Responds r →
          aiohttp.status r = 401%Z →
          async_health_check self
          = Raises (Exn MachineMonAuthError "Invalid client password"))
  ∧ (∀ r, health_exchange self = aiohttp.Responds r →
          (400 ≤ aiohttp.status r)%Z → aiohttp.status r ≠ 401%Z →
          async_health_check self
          = Raises (Exn MachineMonApiError (http_error_message r))
          ∧ String.length (PyStr.take 200 (aiohttp.text r)) <= 200)
  ∧ (∀ r members, health_exchange self = aiohttp.Responds r →
          (aiohttp.status r < 400)%Z →
          aiohttp.body_json r = aiohttp.Decodes (json.JObj members) →
          async_health_check self = Returns tt)
  ∧ (∀ r v, health_exchange self = aiohttp.Responds r →
          (aiohttp.status r < 400)%Z →
          aiohttp.body_json r = aiohttp.Decodes v →
          (∀ members, v ≠ json.JObj members) →
          async_health_check self
          = Raises (Exn MachineMonApiError "Invalid response: expected JSON object")).
Proof.
  unfold async_health_check, health_exchange. repeat split.
  - intros e Hx Ht.
    by rewrite (request_json_transport self _ _ None None e Hx Ht).
  - intros r Hx H401.
    by rewrite (request_json_401 self _ _ None None r Hx H401).
  - by rewrite (request_json_error_status self _ _ None None r H H0 H1).
  - apply take_length.
  - intros r members Hx Hlt Hbody.
    by rewrite (request_json_object self _ _ None None r members Hx Hlt Hbody).
  - intros r v Hx Hlt Hbody Hv.
    by rewrite (request_json_not_object self _ _ None None r v Hx Hlt Hbody Hv).
Qed.

Lemma health_check_classified_witness :
  async_health_check (sample_client (answering 200 "{}" (aiohttp.Decodes (json.JObj []))))
  = Returns tt.
Proof.
  exact (proj1 (proj2 (proj2 (proj2
           (health_check_classified
              (sample_client (answering 200 "{}" (aiohttp.Decodes (json.JObj []))))))))
           _ [] eq_refl eq_refl eq_refl).
Defined.

(** C5 as stated fails: a health check answered with status 500 raises the
    API error, which is not a connection error. *)
Lemma health_check_500_is_api_error :
  let self := sample_client (answering 500 "oops" (aiohttp.NotJson "Expecting value")) in
  async_health_check self
  = Raises (Exn MachineMonApiError "HTTP 500 from MachineMon API: oops")
  ∧ isinstance (Exn MachineMonApiError "HTTP 500 from MachineMon API: oops")
               MachineMonConnectionError = false
  ∧ ¬ (∃ msg, async_health_check self = Raises (Exn MachineMonConnectionError msg)).
Proof.
  intros self. repeat split.
  intros [msg H]. vm_compute in H. discriminate.
Qed.

(** C7 at the failing input. A 200 response whose body is not JSON makes
    [async_checkin] raise [json.JSONDecodeError], which is not an API error
    of the client, and the attempt lets it escape instead of logging it. *)
Theorem non_json_success_body_escapes :
  let msg := "Expecting value: line 1 column 1 (char 0)" in
  let st := sample_state (answering 200 "<html>OK</html>" (aiohttp.NotJson msg)) in
  async_checkin (_api (self st)) (payload_of sample_host st) (_password (self st))
  = Raises (Exn JSONDecodeError msg)
  ∧ isinstance (Exn JSONDecodeError msg) MachineMonApiError = false
  ∧ (_async_checkin sample_host st).1 = Raises (Exn JSONDecodeError msg)
  ∧ effects (_async_checkin sample_host st).2 = [].
Proof. repeat split. Qed.

(** What does hold of C7: the API error for an error status other than 401
    and for a JSON body that is not an object, with the identifier kept. *)
Lemma checkin_api_error_cases (h : Host) (st : State) (r : aiohttp.ClientResponse) :
  _lock (self st) = false →
  checkin_exchange (_api (self st)) (payload_of h st) (_password (self st))
  = aiohttp.Responds r →
  ((400 ≤ aiohttp.status r)%Z → aiohttp.status r ≠ 401%Z →
     async_checkin (_api (self st)) (payload_of h st) (_password (self st))
     = Raises (Exn MachineMonApiError (http_error_message r))
     ∧ String.length (PyStr.take 200 (aiohttp.text r)) <= 200
     ∧ _client_id (self (_async_checkin h st).2) = _client_id (self st))
  ∧ (∀ v, (aiohttp.status r < 400)%Z → aiohttp.body_json r = aiohttp.Decodes v →
          (∀ members, v ≠ json.JObj members) →
     async_checkin (_api (self st)) (payload_of h st) (_password (self st))
     = Raises (Exn MachineMonApiError "Invalid response: expected JSON object")
     ∧ _client_id (self (_async_checkin h st).2) = _client_id (self st)).
Proof.
  intros Hfree Hx. split.
  - intros Hge Hne.
    pose proof (request_json_error_status _ _ _ _ _ r Hx Hge Hne) as Hcall.
    fold (async_checkin (_api (self st)) (payload_of h st) (_password (self st))) in Hcall.
    split; [exact Hcall|]. split; [apply take_length|].
    rewrite (attempt_unfold h st Hfree), Hcall. reflexivity.
  - intros v Hlt Hbody Hv.
    pose proof (request_json_not_object _ _ _ _ _ r v Hx Hlt Hbody Hv) as Hcall.
    fold (async_checkin (_api (self st)) (payload_of h st) (_password (self st))) in Hcall.
    split; [exact Hcall|].
    rewrite (attempt_unfold h st Hfree), Hcall. reflexivity.
Qed.

(** ** Reconciliation *)

Lemma attempt_success (h : Host) (st : State) (response : dict) :
  _lock (self st) = false →
  async_checkin (_api (self st)) (payload_of h st) (_password (self st))
  = Returns response →
  let sid := server_client_id_of response in
  (_async_checkin h st).1 = Returns tt
  ∧ (sid ≠ "" → sid ≠ _client_id (self st) → adopted sid st (_async_checkin h st).2)
  ∧ (sid = "" ∨ sid = _client_id (self st) → unchanged st (_async_checkin h st).2).
Proof.
  intros Hfree Hcall sid.
  rewrite (attempt_unfold h st Hfree), Hcall, complete_returns. fold sid.
  change (_client_id (self (set_lock true st))) with (_client_id (self st)).
  cbn [fst snd]. split; [reflexivity|].
  unfold adopted, unchanged.
  destruct (PyStr.truthy sid) eqn:Ht;
    destruct (String.eqb_spec sid (_client_id (self st))) as [He|He];
    cbn [andb negb].
  - split; [congruence|]. intros _. by repeat split.
  - split; [intros _ _; by repeat split|].
    intros [->|?]; [discriminate|congruence].
  - split; [congruence|]. intros _. by repeat split.
  - apply not_true_iff_false in Ht. rewrite truthy_nonempty in Ht.
    split; [intros H; by destruct Ht|]. intros _. by repeat split.
Qed.

Lemma server_client_id_of_str (response : dict) (s : string) :
  json.get "client_id" response = json.JStr s →
  server_client_id_of response = PyStr.strip s.
Proof.
  unfold server_client_id_of, json.or_. intros ->.
  destruct s; reflexivity.
Qed.

Lemma server_client_id_of_truthy (response : dict) :
  json.truthy (json.get "client_id" response) = true →
  server_client_id_of response
  = PyStr.strip (json.str (json.get "client_id" response)).
Proof. unfold server_client_id_of, json.or_. intros ->. reflexivity. Qed.

Lemma server_client_id_of_falsy (response : dict) :
  json.truthy (json.get "client_id" response) = false →
  server_client_id_of response = "".
Proof. unfold server_client_id_of, json.or_. intros ->. reflexivity. Qed.

Lemma get_absent (key : string) (members : dict) :
  (∀ x, (key, x) ∉ members) → json.get key members = json.JNull.
Proof.
  induction members as [|[k x] rest IH]; intros Habs; simpl; [reflexivity|].
  destruct (String.eqb_spec k key) as [->|Hne].
  - destruct (Habs x). left.
  - apply IH. intros y Hy. apply (Habs y). by right.
Qed.

(** C1, as the code has it. After a successful call, the identifier the
    runtime compares and adopts is the response's [client_id] turned into a
    string and trimmed (for a string value, the trimmed string). When that
    text is non-empty and differs from the current identifier, it becomes
    the in-memory identifier and the [client_id] of the config entry, through
    exactly one update call; when it is empty (a missing or null [client_id]
    among others) or equal to the current identifier, the identifier, the
    config entry and the effects are unchanged. *)
Theorem reconcile_adopts_trimmed_client_id
    (h : Host) (st : State) (response : dict) :
  _lock (self st) = false →
  async_checkin (_api (self st)) (payload_of h st) (_password (self st))
  = Returns response →
  let sid := server_client_id_of response in
  let st' := (_async_checkin h st).2 in
  (_async_checkin h st).1 = Returns tt
  ∧ (∀ s, json.get "client_id" response = json.JStr s → sid = PyStr.strip s)
  ∧ ((∀ x, ("client_id", x) ∉ response) → sid = "")
  ∧ (sid ≠ "" → sid ≠ _client_id (self st) → adopted sid st st')
  ∧ (sid = "" ∨ sid = _client_id (self st) → unchanged st st').
Proof.
  intros Hfree Hcall sid st'.
  destruct (attempt_success h st response Hfree Hcall) as (Hret & Hnew & Hsame).
  split; [exact Hret|]. split; [apply server_client_id_of_str|].
  split; [|split; [exact Hnew | exact Hsame]].
  intros Habs. apply server_client_id_of_falsy.
  by rewrite (get_absent _ _ Habs).
Qed.

Lemma reconcile_adopts_trimmed_client_id_witness :
  let response := [("client_id", json.JStr "srv-123")] in
  let st := sample_state (answering 200 "" (aiohttp.Decodes (json.JObj response))) in
  adopted "srv-123" st (_async_checkin sample_host st).2.
Proof.
  intros response st.
  pose proof (reconcile_adopts_trimmed_client_id sample_host st response
                eq_refl eq_refl) as (_ & _ & _ & Hnew & _).
  apply Hnew; discriminate.
Defined.

(** C1 as stated fails. A [client_id] with white space around it is
    non-empty after trimming and differs from the current identifier, yet
    the identifier the runtime takes is the trimmed text, not that value;
    and one that differs from the current identifier only by such white
    space is not taken at all. *)
Lemma reconcile_padded_client_id :
  let st1 := sample_state (answering 200 ""
               (aiohttp.Decodes (json.JObj [("client_id", json.JStr " srv-123 ")]))) in
  let st2 := sample_state (answering 200 ""
               (aiohttp.Decodes (json.JObj [("client_id", json.JStr "local-abc ")]))) in
  (PyStr.strip " srv-123 " ≠ "" ∧ " srv-123 " ≠ _client_id (self st1)
   ∧ _client_id (self (_async_checkin sample_host st1).2) ≠ " srv-123 ")
  ∧ (PyStr.strip "local-abc " ≠ "" ∧ "local-abc " ≠ _client_id (self st2)
     ∧ _client_id (self (_async_checkin sample_host st2).2) ≠ "local-abc "
     ∧ effects (_async_checkin sample_host st2).2 = []).
Proof. vm_compute. repeat split; discriminate. Qed.

Lemma truthy_false_falsy (v : json.value) : json.truthy v = false ↔ falsy v.
Proof.
  unfold falsy. destruct v as [|b|n|f text|s|items|members]; simpl.
  - split; [auto|done].
  - destruct b; split; try done; [|auto 7].
    intros [?|[?|[?|[(?&?&?&?)|[?|[?|?]]]]]]; done.
  - destruct (Z.eqb_spec n 0) as [->|Hn]; simpl; split; try done; [auto 7|].
    intros [?|[?|[?|[(?&?&?&?)|[?|[?|?]]]]]]; try done. congruence.
  - destruct (PrimFloat.eqb f 0) eqn:Hf; simpl; split; try done.
    + intros _. do 3 right. left. eauto.
    + intros [?|[?|[?|[(?&?&?&?)|[?|[?|?]]]]]]; try done. congruence.
  - destruct s; simpl; split; try done; [auto 7|].
    intros [?|[?|[?|[(?&?&?&?)|[?|[?|?]]]]]]; done.
  - destruct items; split; try done; [auto 7|].
    intros [?|[?|[?|[(?&?&?&?)|[?|[?|?]]]]]]; done.
  - destruct members; split; try done; [auto 8|].
    intros [?|[?|[?|[(?&?&?&?)|[?|[?|?]]]]]]; done.
Qed.

(** C10, as the code has it. The [client_id] of the response is taken
    through [x or ""], [str] and [strip]. A missing [client_id] reads as
    null; null, false, a zero number, the empty string, the empty array and
    the empty object change nothing; any other value is adopted and
    persisted as its trimmed [str] rendering when that is non-empty and
    differs from the current identifier, and the number 123 renders as
    ["123"]. *)
Theorem client_id_coerced_past_falsy
    (h : Host) (st : State) (response : dict) :
  _lock (self st) = false →
  async_checkin (_api (self st)) (payload_of h st) (_password (self st))
  = Returns response →
  let v := json.get "client_id" response in
  let st' := (_async_checkin h st).2 in
  ((∀ x, ("client_id", x) ∉ response) → v = json.JNull)
  ∧ (falsy v → unchanged st st')
  ∧ (¬ falsy v →
     let s := PyStr.strip (json.str v) in
     (s ≠ "" → s ≠ _client_id (self st) → adopted s st st')
     ∧ (s = "" ∨ s = _client_id (self st) → unchanged st st'))
  ∧ json.str (json.JInt 123) = "123".
Proof.
  intros Hfree Hcall v st'. subst v st'.
  destruct (attempt_success h st response Hfree Hcall) as (_ & Hnew & Hsame).
  split; [apply get_absent|]. split; [|split; [|reflexivity]].
  - intros Hv%truthy_false_falsy. apply Hsame. left.
    by apply server_client_id_of_falsy.
  - intros Hv. rewrite <- truthy_false_falsy, not_false_iff_true in Hv.
    cbn zeta. rewrite <- (server_client_id_of_truthy response Hv).
    split; [exact Hnew | exact Hsame].
Qed.

Lemma client_id_coerced_past_falsy_witness :
  let response := [("ok", json.JBool true); ("client_id", json.JInt 123)] in
  let st := sample_state (answering 200 "" (aiohttp.Decodes (json.JObj response))) in
  adopted "123" st (_async_checkin sample_host st).2.
Proof.
  intros response st.
  pose proof (client_id_coerced_past_falsy sample_host st response
                eq_refl eq_refl) as (_ & _ & Hnew & _).
  apply Hnew; [|discriminate|discriminate].
  rewrite <- truthy_false_falsy. discriminate.
Defined.

(** C10 as stated fails. The empty array is a non-string value other than
    false, 0, null and the empty string; its rendering ["[]"] differs from
    the current identifier, and yet nothing is adopted or persisted. *)
Lemma empty_array_client_id_not_adopted :
  let st := sample_state (answering 200 ""
              (aiohttp.Decodes (json.JObj [("client_id", json.JArr [])]))) in
  json.str (json.JArr []) = "[]"
  ∧ "[]" ≠ _client_id (self st)
  ∧ (_async_checkin sample_host st).1 = Returns tt
  ∧ _client_id (self (_async_checkin sample_host st).2) = "local-abc"
  ∧ effects (_async_checkin sample_host st).2 = [].
Proof. vm_compute. repeat split; discriminate. Qed.

(** ** The single-flight guard *)

Lemma flying_app (ts : list task) (t : task) :
  flying (ts ++ [t]) = flying ts + (if in_flight t then 1 else 0).
Proof. induction ts as [|t0 ts IH]; simpl; [lia|]. rewrite IH. lia. Qed.

Lemma flying_insert (ts : list task) (i : nat) (t0 t : task) :
  ts !! i = Some t0 →
  flying (<[ i := t ]> ts) + (if in_flight t0 then 1 else 0)
  = flying ts + (if in_flight t then 1 else 0).
Proof.
  revert i. induction ts as [|t1 ts IH]; intros [|i] Hi; simpl in *; try done.
  - injection Hi as ->. lia.
  - specialize (IH i Hi). lia.
Qed.

Lemma complete_releases (result : outcome dict) (st : State) :
  _lock (self (checkin_complete result st).2) = false.
Proof.
  unfold checkin_complete. destruct result as [response|e].
  - destruct (PyStr.truthy _ && negb _); reflexivity.
  - destruct (isinstance e MachineMonAuthError); [reflexivity|].
    destruct (isinstance e MachineMonApiError); reflexivity.
Qed.

Lemma step_guard_inv (ev : event) (w w' : Loop) :
  guard_inv w → step ev w = Some w' → guard_inv w'.
Proof.
  unfold guard_inv. intros Hinv Hstep.
  destruct ev as [| | |i|i h|i x]; simpl in Hstep.
  - injection Hstep as <-. simpl. rewrite flying_app. simpl. lia.
  - destruct (_unsub (self (state w))); injection Hstep as <-; simpl; done.
  - destruct (timers w); [done|]. injection Hstep as <-. simpl.
    rewrite flying_app. simpl. lia.
  - destruct (tasks w !! i) as [[| | |]|] eqn:Hi; try done.
    pose proof (flying_insert (tasks w) i Created) as Hins.
    unfold checkin_enter in Hstep.
    destruct (_lock (self (state w))) eqn:Hlock; injection Hstep as <-; simpl.
    + specialize (Hins (Done (Returns tt)) Hi). simpl in Hins.
      rewrite Hlock. lia.
    + specialize (Hins (Building (_client_id (self (state w)))
                                 (_session_id (self (state w)))) Hi).
      simpl in Hins. lia.
  - destruct (tasks w !! i) as [[|cid sid| |]|] eqn:Hi; try done.
    injection Hstep as <-. simpl.
    pose proof (flying_insert (tasks w) i _
                  (Requesting (_build_checkin_payload cid sid h)) Hi) as Hins.
    simpl in Hins. lia.
  - destruct (tasks w !! i) as [[| |payload|]|] eqn:Hi; try done.
    destruct (checkin_complete _ (state w)) as [r st] eqn:Hc.
    injection Hstep as <-. simpl.
    pose proof (complete_releases
                  (async_checkin
                     {| _session := fun _ => x;
                        _base_url := _base_url (_api (self (state w))) |}
                     payload (_password (self (state w)))) (state w)) as Hrel.
    rewrite Hc in Hrel. simpl in Hrel. rewrite Hrel.
    pose proof (flying_insert (tasks w) i _ (Done r) Hi) as Hins.
    simpl in Hins.
    destruct (_lock (self (state w))); lia.
Qed.

Lemma run_guard_inv (evs : list event) (w w' : Loop) :
  guard_inv w → run evs w = Some w' → guard_inv w'.
Proof.
  revert w. induction evs as [|ev evs IH]; intros w Hinv Hrun; simpl in Hrun.
  - by injection Hrun as <-.
  - destruct (step ev w) as [w1|] eqn:Hstep; [|done].
    eapply IH; [|exact Hrun]. eapply step_guard_inv; eassumption.
Qed.

Lemma init_unlocked (data : gmap string conf_value) (api : MachineMonApiClient)
      (uuid4 : string) (r : MachineMonRuntime) :
  MachineMonRuntime__init__ data api uuid4 = Some r → _lock r = false.
Proof.
  unfold MachineMonRuntime__init__.
  destruct (data !! CONF_CLIENT_ID); [|done].
  destruct (data !! CONF_PASSWORD); [|done].
  by intros [= <-].
Qed.

Lemma step_done_stays (ev : event) (w w' : Loop) (i : nat) (r : outcome unit) :
  tasks w !! i = Some (Done r) → step ev w = Some w' →
  tasks w' !! i = Some (Done r).
Proof.
  intros Hi Hstep.
  assert (∀ j t st, tasks w !! j = Some t → t ≠ Done r ∨ j ≠ i →
                    tasks (set_task j t st w) !! i = Some (Done r)) as Hset.
  { intros j t st Hj Hne. simpl.
    destruct (decide (j = i)) as [->|Hji].
    - rewrite Hi in Hj. injection Hj as <-. by destruct Hne.
    - by rewrite list_lookup_insert_ne. }
  destruct ev as [| | |j|j h|j x]; simpl in Hstep.
  - injection Hstep as <-. simpl. by apply lookup_app_l_Some.
  - destruct (_unsub (self (state w))); by injection Hstep as <-.
  - destruct (timers w); [done|]. injection Hstep as <-. simpl.
    by apply lookup_app_l_Some.
  - destruct (tasks w !! j) as [[| | |]|] eqn:Hj; try done.
    assert (j ≠ i) as Hji by (intros ->; congruence).
    destruct (checkin_enter (state w)) as [[[cid sid]|] st];
      injection Hstep as <-; simpl; by rewrite list_lookup_insert_ne.
  - destruct (tasks w !! j) as [[|cid sid| |]|] eqn:Hj; try done.
    assert (j ≠ i) as Hji by (intros ->; congruence).
    injection Hstep as <-. simpl. by rewrite list_lookup_insert_ne.
  - destruct (tasks w !! j) as [[| |payload|]|] eqn:Hj; try done.
    assert (j ≠ i) as Hji by (intros ->; congruence).
    destruct (checkin_complete _ (state w)) as [r' st].
    injection Hstep as <-. simpl. by rewrite list_lookup_insert_ne.
Qed.

Lemma run_done_stays (evs : list event) (w w' : Loop) (i : nat) (r : outcome unit) :
  tasks w !! i = Some (Done r) → run evs w = Some w' →
  tasks w' !! i = Some (Done r).
Proof.
  revert w. induction evs as [|ev evs IH]; intros w Hi Hrun; simpl in Hrun.
  - by injection Hrun as <-.
  - destruct (step ev w) as [w1|] eqn:Hstep; [|done].
    eapply IH; [|exact Hrun]. eapply step_done_stays; eassumption.
Qed.

(** C2. In every state the loop can reach from a freshly built runtime, at
    most one attempt is under way, and one is under way exactly when the
    lock is held. A task that starts while the lock is held ends at once
    with the runtime state, the effects, the timers and every other task
    untouched, and it stays ended whatever happens afterwards: the trigger
    is neither queued nor run again. *)
Theorem single_flight
    (data : gmap string conf_value) (api : MachineMonApiClient) (uuid4 : string)
    (r : MachineMonRuntime) (evs : list event) (w : Loop) :
  MachineMonRuntime__init__ data api uuid4 = Some r →
  run evs (boot r data) = Some w →
  flying (tasks w) ≤ 1
  ∧ (flying (tasks w) = 1 ↔ _lock (self (state w)) = true)
  ∧ ∀ i, tasks w !! i = Some Created → _lock (self (state w)) = true →
         step (Run i) w = Some (skipped i w)
         ∧ flying (tasks (skipped i w)) = flying (tasks w)
         ∧ ∀ evs' w', run evs' (skipped i w) = Some w' →
                      tasks w' !! i = Some (Done (Returns tt)).
Proof.
  intros Hinit Hrun.
  assert (guard_inv w) as Hinv.
  { eapply run_guard_inv; [|exact Hrun].
    unfold guard_inv. simpl. by rewrite (init_unlocked _ _ _ _ Hinit). }
  unfold guard_inv in Hinv.
  split; [destruct (_lock (self (state w))); lia|].
  split; [destruct (_lock (self (state w))); split; (lia || done)|].
  intros i Hi Hheld. split; [|split].
  - simpl. rewrite Hi. unfold checkin_enter. rewrite Hheld. reflexivity.
  - pose proof (flying_insert (tasks w) i Created (Done (Returns tt)) Hi) as Hins.
    simpl in *. lia.
  - intros evs' w' Hrun'. eapply run_done_stays; [|exact Hrun'].
    simpl. apply list_lookup_insert_eq. by eapply lookup_lt_Some.
Qed.

Lemma single_flight_witness :
  let session := answering 200 "" (aiohttp.Decodes (json.JObj [])) in
  match run sample_events (boot (sample_runtime session) sample_data) with
  | Some w =>
      flying (tasks w) ≤ 1
      ∧ tasks w = [Building "local-abc" (_session_id (sample_runtime session));
                   Done (Returns tt)]
  | None => False
  end.
Proof.
  intros session.
  destruct (run sample_events (boot (sample_runtime session) sample_data))
    as [w|] eqn:Hrun; [|vm_compute in Hrun; discriminate].
  assert (MachineMonRuntime__init__ sample_data (sample_client session)
            (_session_id (sample_runtime session))
          = Some (sample_runtime session)) as Hinit by (vm_compute; reflexivity).
  split.
  - exact (proj1 (single_flight _ _ _ _ _ _ Hinit Hrun)).
  - vm_compute in Hrun. injection Hrun as <-. reflexivity.
Defined.

(** The attempt run in one piece is the loop running its three steps with
    nothing in between. *)
Lemma attempt_is_three_steps
    (h : Host) (x : aiohttp.exchange) (w : Loop) (i : nat) :
  tasks w !! i = Some Created →
  _lock (self (state w)) = false →
  _session (_api (self (state w))) = (fun _ => x) →
  ∃ w', run [Run i; Built i h; Responded i x] w = Some w'
        ∧ state w' = (_async_checkin h (state w)).2
        ∧ tasks w' = <[ i := Done (_async_checkin h (state w)).1 ]> (tasks w).
Proof.
  intros Hi Hfree Hsession.
  assert (i < length (tasks w)) as Hlen by (by eapply lookup_lt_Some).
  rewrite (attempt_unfold h (state w) Hfree).
  assert (_api (self (state w))
          = {| _session := fun _ => x;
               _base_url := _base_url (_api (self (state w))) |}) as Hapi.
  { destruct (_api (self (state w))) as [s b]. simpl in *. by subst. }
  unfold run, step. rewrite Hi. unfold checkin_enter. rewrite Hfree.
  cbn [set_task tasks state]. rewrite list_lookup_insert_eq by done.
  cbn [set_task tasks state].
  rewrite list_lookup_insert_eq by (by rewrite length_insert).
  cbn [set_lock self _api _password _base_url].
  unfold payload_of. rewrite <- Hapi.
  destruct (checkin_complete _ _) as [r st] eqn:Hc.
  eexists. split; [reflexivity|]. cbn [state tasks set_task fst snd].
  split; [reflexivity|].
  by rewrite !list_insert_insert_eq.
Qed.

(** * Further properties *)

(** ** Trimming *)

Lemma rev_app_chars (s1 s2 : string) :
  list_ascii_of_string (String.rev_app s1 s2)
  = rev (list_ascii_of_string s1) ++ list_ascii_of_string s2.
Proof.
  revert s2. induction s1 as [|c s1 IH]; intros s2; simpl; [reflexivity|].
  rewrite IH. simpl. by rewrite <- app_assoc.
Qed.

Lemma rev_chars (s : string) :
  list_ascii_of_string (String.rev s) = rev (list_ascii_of_string s).
Proof. unfold String.rev. rewrite rev_app_chars. simpl. apply app_nil_r. Qed.

Lemma append_chars (s1 s2 : string) :
  list_ascii_of_string (s1 +:+ s2)
  = list_ascii_of_string s1 ++ list_ascii_of_string s2.
Proof. induction s1 as [|c s1 IH]; simpl; [reflexivity|]. by rewrite IH. Qed.

Lemma chars_inj (s1 s2 : string) :
  list_ascii_of_string s1 = list_ascii_of_string s2 → s1 = s2.
Proof.
  intros H. rewrite <- (string_of_list_ascii_of_string s1),
    <- (string_of_list_ascii_of_string s2). by rewrite H.
Qed.

Lemma rev_involutive_string (s : string) : String.rev (String.rev s) = s.
Proof. apply chars_inj. rewrite !rev_chars. apply rev_involutive. Qed.

Lemma last_rev (l : list ascii) : last (rev l) = head l.
Proof. destruct l as [|c l]; [done|]. simpl. by rewrite last_snoc. Qed.

Lemma head_rev (l : list ascii) : head (rev l) = last l.
Proof. rewrite <- (rev_involutive l) at 2. by rewrite last_rev. Qed.

Lemma last_char_chars (s : string) :
  last_char s = last (list_ascii_of_string s).
Proof.
  induction s as [|c s IH]; [reflexivity|].
  destruct s as [|d s]; [reflexivity|]. simpl in *. exact IH.
Qed.

Lemma first_char_chars (s : string) :
  first_char s = head (list_ascii_of_string s).
Proof. by destruct s. Qed.

Section dropping.

Variable p : ascii -> bool.

Abbreviation ldrop := (ldrop p).
Abbreviation rdrop := (rdrop p).

Lemma ldrop_split (s : string) :
  ∃ n pre, s = pre +:+ ldrop s ∧ String.length pre = n
           ∧ Forall (fun c => p c = true) (list_ascii_of_string pre).
Proof.
  induction s as [|c s (n & pre & Hs & Hn & Hp)]; simpl.
  - exists 0, "". by repeat split.
  - destruct (p c) eqn:Hc.
    + exists (S n), (String c pre).
      split; [change (String c s = String c (pre +:+ ldrop s)); by rewrite <- Hs|].
      simpl.
      split; [by rewrite Hn|]. by constructor.
    + exists 0, "". by repeat split.
Qed.

Lemma ldrop_first (s : string) (c : ascii) :
  first_char (ldrop s) = Some c → p c = false.
Proof.
  induction s as [|d s IH]; simpl; [done|].
  destruct (p d) eqn:Hd; [exact IH|]. simpl. by intros [= <-].
Qed.

Lemma ldrop_idem (s : string) : ldrop (ldrop s) = ldrop s.
Proof.
  induction s as [|d s IH]; simpl; [done|].
  destruct (p d) eqn:Hd; [exact IH|]. simpl. by rewrite Hd.
Qed.

Lemma ldrop_keeps (s : string) (c : ascii) :
  first_char s = Some c → p c = false → ldrop s = s.
Proof. destruct s as [|d s]; simpl; [done|]. intros [= ->] ->. done. Qed.

Lemma ldrop_all (s : string) :
  Forall (fun c => p c = true) (list_ascii_of_string s) → ldrop s = "".
Proof.
  induction s as [|d s IH]; simpl; [done|].
  intros H. apply Forall_cons in H as [-> H]. auto.
Qed.

Lemma ldrop_last (s : string) (c : ascii) :
  last_char (ldrop s) = Some c → last_char s = Some c.
Proof.
  induction s as [|d s IH]; simpl; [done|].
  destruct (p d) eqn:Hd; [|done].
  intros H. specialize (IH H). destruct s; [done|exact IH].
Qed.

Lemma ldrop_last_kept (s : string) (c : ascii) :
  last_char s = Some c → p c = false → last_char (ldrop s) = Some c.
Proof.
  induction s as [|d s IH]; [done|]. intros Hlast Hc.
  cbn [ldrop]. destruct (p d) eqn:Hd; [|exact Hlast].
  destruct s as [|e s]; [simpl in Hlast; congruence|].
  apply IH; [exact Hlast|exact Hc].
Qed.

Lemma rdrop_last (s : string) (c : ascii) :
  last_char (rdrop s) = Some c → p c = false.
Proof.
  unfold rdrop. rewrite last_char_chars, rev_chars, last_rev.
  rewrite <- first_char_chars. apply ldrop_first.
Qed.

Lemma rdrop_idem (s : string) : rdrop (rdrop s) = rdrop s.
Proof. unfold rdrop. by rewrite rev_involutive_string, ldrop_idem. Qed.

Lemma rdrop_split (s : string) :
  ∃ suf, s = rdrop s +:+ suf
         ∧ Forall (fun c => p c = true) (list_ascii_of_string suf).
Proof.
  destruct (ldrop_split (String.rev s)) as (n & pre & Hs & _ & Hp).
  exists (String.rev pre). split.
  - apply chars_inj. unfold rdrop. rewrite append_chars, !rev_chars.
    rewrite <- rev_app_distr, <- append_chars, <- Hs, rev_chars.
    by rewrite rev_involutive.
  - rewrite rev_chars. by apply Forall_rev.
Qed.

Lemma rdrop_snoc (s : string) (c : ascii) :
  p c = true → rdrop (s +:+ String c "") = rdrop s.
Proof.
  intros Hc. unfold rdrop. f_equal.
  assert (String.rev (s +:+ String c "") = String c (String.rev s)) as ->.
  { apply chars_inj. rewrite rev_chars, append_chars. simpl.
    by rewrite rev_app_distr, rev_chars. }
  simpl. by rewrite Hc.
Qed.

Lemma rdrop_first (s : string) (c : ascii) :
  first_char (rdrop s) = Some c → first_char s = Some c.
Proof.
  unfold rdrop. rewrite !first_char_chars, rev_chars, head_rev.
  rewrite <- last_char_chars. intros H%ldrop_last.
  by rewrite last_char_chars, rev_chars, last_rev in H.
Qed.

Lemma rdrop_first_kept (s : string) (c : ascii) :
  first_char s = Some c → p c = false → first_char (rdrop s) = Some c.
Proof.
  intros Hfirst Hc. unfold rdrop.
  rewrite first_char_chars, rev_chars, head_rev, <- last_char_chars.
  apply ldrop_last_kept; [|exact Hc].
  by rewrite last_char_chars, rev_chars, last_rev, <- first_char_chars.
Qed.

End dropping.

Lemma lstrip_ldrop (s : string) : PyStr.lstrip s = ldrop PyStr.isspace s.
Proof. induction s as [|c s IH]; simpl; [done|]. by rewrite IH. Qed.

Lemma rstrip_rdrop (s : string) : PyStr.rstrip s = rdrop PyStr.isspace s.
Proof. unfold PyStr.rstrip, rdrop. by rewrite lstrip_ldrop. Qed.

Lemma lstrip_char_ldrop (c : ascii) (s : string) :
  PyStr.lstrip_char c s = ldrop (Ascii.eqb c) s.
Proof. induction s as [|d s IH]; simpl; [done|]. by rewrite IH. Qed.

Lemma rstrip_char_rdrop (c : ascii) (s : string) :
  PyStr.rstrip_char c s = rdrop (Ascii.eqb c) s.
Proof. unfold PyStr.rstrip_char, rdrop. by rewrite lstrip_char_ldrop. Qed.

Lemma strip_idem (s : string) : PyStr.strip (PyStr.strip s) = PyStr.strip s.
Proof.
  unfold PyStr.strip. rewrite !rstrip_rdrop, !lstrip_ldrop.
  set (t := ldrop PyStr.isspace s).
  assert (ldrop PyStr.isspace (rdrop PyStr.isspace t) = rdrop PyStr.isspace t) as ->.
  { destruct (first_char (rdrop PyStr.isspace t)) as [c|] eqn:Hc.
    - apply (ldrop_keeps _ _ c Hc).
      apply rdrop_first in Hc. by apply (ldrop_first _ s).
    - by destruct (rdrop PyStr.isspace t). }
  apply rdrop_idem.
Qed.

Lemma strip_ends (s : string) (c : ascii) :
  first_char (PyStr.strip s) = Some c ∨ last_char (PyStr.strip s) = Some c →
  PyStr.isspace c = false.
Proof.
  unfold PyStr.strip. rewrite rstrip_rdrop, lstrip_ldrop. intros [H|H].
  - apply rdrop_first in H. by apply (ldrop_first _ s).
  - by apply (rdrop_last _ _ _ H).
Qed.

Lemma all_char_repeat (c : ascii) (s : string) :
  Forall (fun d => Ascii.eqb c d = true) (list_ascii_of_string s) →
  s = repeat_char c (String.length s).
Proof.
  induction s as [|d s IH]; simpl; [done|].
  intros H. apply Forall_cons in H as [Hd%Ascii.eqb_eq H]. subst d.
  by rewrite <- IH.
Qed.

Lemma take_short (n : nat) (s : string) :
  String.length s ≤ n → PyStr.take n s = s.
Proof.
  revert s. induction n as [|n IH]; intros [|c s]; simpl; try done; [lia|].
  intros H. rewrite IH; [done|lia].
Qed.

Lemma take_long (n : nat) (s : string) :
  n ≤ String.length s → String.length (PyStr.take n s) = n.
Proof.
  revert s. induction n as [|n IH]; intros [|c s]; simpl; try done; [lia|].
  intros H. rewrite IH; [done|lia].
Qed.

Lemma take_prefix (n : nat) (s : string) : ∃ rest, s = PyStr.take n s +:+ rest.
Proof.
  revert s. induction n as [|n IH]; intros [|c s]; simpl; try by eexists.
  destruct (IH s) as [rest Hrest]. exists rest.
  change (String c s = String c (PyStr.take n s +:+ rest)). by rewrite <- Hrest.
Qed.

(** ** The API client, further *)

(** X1. The base URL the client keeps is the configured URL without its
    trailing slashes: it never ends in a slash, only slashes were removed,
    and one more trailing slash on the configured URL changes nothing. *)
Theorem base_url_without_trailing_slashes
    (session : aiohttp.ClientSession) (collection_url : string) :
  let base := _base_url (MachineMonApiClient__init__ session collection_url) in
  last_char base ≠ Some "/"%char
  ∧ (∃ n, collection_url = base +:+ repeat_char "/" n)
  ∧ _base_url (MachineMonApiClient__init__ session (collection_url +:+ "/")) = base
  ∧ _base_url (MachineMonApiClient__init__ session base) = base.
Proof.
  cbn [MachineMonApiClient__init__ _base_url]. rewrite !rstrip_char_rdrop.
  repeat split.
  - intros H%rdrop_last. by rewrite Ascii.eqb_refl in H.
  - destruct (rdrop_split (Ascii.eqb "/") collection_url) as (suf & Hs & Hall).
    exists (String.length suf). by rewrite <- (all_char_repeat _ _ Hall).
  - by apply rdrop_snoc.
  - apply rdrop_idem.
Qed.

(** X2. A check-in consults the session for one request only: a POST to
    the base URL followed by [/api/v1/checkin], with the payload as JSON
    body, a total timeout of 15, and exactly two headers, [Accept] and the
    password in [X-Client-Password]. Two clients with the same base URL
    whose sessions agree on that request give the same result. *)
Theorem checkin_is_one_request
    (self other : MachineMonApiClient) (payload : Payload.t) (pw : string) :
  let req := request_for self "POST" "/api/v1/checkin"
               (Some {[ "X-Client-Password" := pw ]}) (Some payload) in
  _base_url other = _base_url self →
  _session other req = _session self req →
  async_checkin other payload pw = async_checkin self payload pw
  ∧ aiohttp.method req = "POST"
  ∧ aiohttp.url req = _base_url self +:+ "/api/v1/checkin"
  ∧ aiohttp.json req = Some payload
  ∧ aiohttp.timeout_total req = 15%Z
  ∧ aiohttp.headers req
    = {[ "X-Client-Password" := pw; "Accept" := "application/json" ]}.
Proof.
  intros req Hbase Hsession. repeat split.
  - unfold async_checkin, _request_json. cbv zeta.
    unfold req, request_for in Hsession. rewrite Hbase, Hsession. reflexivity.
Qed.

Lemma checkin_is_one_request_witness :
  let body := aiohttp.Decodes (json.JObj []) in
  let payload := payload_of sample_host (sample_state (answering 200 "" body)) in
  async_checkin (sample_client (answering_posts 200 "" body)) payload "hunter2"
  = async_checkin (sample_client (answering 200 "" body)) payload "hunter2".
Proof.
  intros body payload.
  exact (proj1 (checkin_is_one_request (sample_client (answering 200 "" body))
                  (sample_client (answering_posts 200 "" body)) payload "hunter2"
                  eq_refl eq_refl)).
Defined.

(** X3. A health check consults the session for one request only: a GET
    to the base URL followed by [/healthz], with no body and the [Accept]
    header alone, so the password is not sent. Two clients with the same
    base URL whose sessions agree on that request give the same result. *)
Theorem health_check_is_one_request (self other : MachineMonApiClient) :
  let req := request_for self "GET" "/healthz" None None in
  _base_url other = _base_url self →
  _session other req = _session self req →
  async_health_check other = async_health_check self
  ∧ aiohttp.method req = "GET"
  ∧ aiohttp.url req = _base_url self +:+ "/healthz"
  ∧ aiohttp.json req = None
  ∧ aiohttp.headers req = {[ "Accept" := "application/json" ]}
  ∧ aiohttp.headers req !! "X-Client-Password" = None.
Proof.
  intros req Hbase Hsession. repeat split.
  unfold async_health_check, _request_json. cbv zeta.
  unfold req, request_for in Hsession. rewrite Hbase, Hsession. reflexivity.
Qed.

Lemma health_check_is_one_request_witness :
  let body := aiohttp.Decodes (json.JObj []) in
  async_health_check
    (sample_client (fun req => if String.eqb (aiohttp.method req) "GET"
                               then answering 200 "" body req
                               else answering_posts 500 "" body req))
  = async_health_check (sample_client (answering 200 "" body)).
Proof.
  intros body.
  exact (proj1 (health_check_is_one_request (sample_client (answering 200 "" body))
                  (sample_client _) eq_refl eq_refl)).
Defined.

(** X4. No request lets an exception of the transport out as it is: what
    [_request_json] raises is never an [aiohttp.ClientError] nor a timeout,
    and when the session failed with one of these it is the connection
    error carrying the same text. *)
Theorem request_json_wraps_transport_errors
    (self : MachineMonApiClient) (method path : string)
    (headers : option (gmap string string)) (json_body : option Payload.t)
    (e : exn) :
  _request_json self method path headers json_body = Raises e →
  transport_error e = false
  ∧ ∀ cause, _session self (request_for self method path headers json_body)
             = aiohttp.Fails cause →
             transport_error cause = true →
             e = Exn MachineMonConnectionError (exc_str cause).
Proof.
  intros Hraise. split.
  - revert Hraise. unfold _request_json. cbv zeta.
    destruct (_session self _) as [cause|r].
    + destruct (isinstance cause MachineMonApiError) eqn:Hapi.
      * intros [= <-]. destruct cause as [[] msg]; by vm_compute in Hapi |- *.
      * destruct (isinstance cause ClientError || isinstance cause TimeoutError) eqn:Ht.
        -- by intros [= <-].
        -- intros [= <-]. exact Ht.
    + destruct (aiohttp.status r =? 401)%Z; [by intros [= <-]|].
      destruct (400 <=? aiohttp.status r)%Z; [by intros [= <-]|].
      unfold aiohttp.json_. destruct (aiohttp.body_json r) as [v|msg].
      * destruct v; by intros [= <-].
      * by intros [= <-].
  - intros cause Hx Ht.
    rewrite (request_json_transport self method path headers json_body cause Hx Ht)
      in Hraise.
    by injection Hraise as <-.
Qed.

Lemma request_json_wraps_transport_errors_witness :
  transport_error (Exn MachineMonConnectionError "Connection refused") = false.
Proof.
  exact (proj1 (request_json_wraps_transport_errors
                  (sample_client (failing (Exn ClientError "Connection refused")))
                  "GET" "/healthz" None None _ eq_refl)).
Defined.

(** X5. The API error for an error status carries the whole response body
    when it has at most 200 characters, and its first 200 characters
    otherwise. *)
Theorem error_status_message_snippet
    (self : MachineMonApiClient) (payload : Payload.t) (pw : string)
    (r : aiohttp.ClientResponse) :
  checkin_exchange self payload pw = aiohttp.Responds r →
  (400 ≤ aiohttp.status r)%Z → aiohttp.status r ≠ 401%Z →
  ∃ snippet rest,
    async_checkin self payload pw
    = Raises (Exn MachineMonApiError
                  ("HTTP " +:+ pretty (aiohttp.status r)
                   +:+ " from MachineMon API: " +:+ snippet))
    ∧ aiohttp.text r = snippet +:+ rest
    ∧ String.length snippet = String.length (aiohttp.text r) `min` 200
    ∧ (String.length (aiohttp.text r) ≤ 200 → snippet = aiohttp.text r).
Proof.
  intros Hx Hge Hne.
  destruct (take_prefix 200 (aiohttp.text r)) as [rest Hrest].
  exists (PyStr.take 200 (aiohttp.text r)), rest.
  split; [|split; [exact Hrest|split]].
  - unfold async_checkin.
    by rewrite (request_json_error_status _ _ _ _ _ r Hx Hge Hne).
  - destruct (decide (String.length (aiohttp.text r) ≤ 200)) as [Hle|Hgt].
    + rewrite take_short by done. lia.
    + rewrite take_long by lia. lia.
  - apply take_short.
Qed.

Lemma error_status_message_snippet_witness :
  ∃ snippet rest,
    async_checkin (sample_client (answering 503 "busy" (aiohttp.NotJson "")))
                  (payload_of sample_host (sample_state (failing (Exn TimeoutError ""))))
                  "hunter2"
    = Raises (Exn MachineMonApiError
                  ("HTTP " +:+ pretty 503%Z +:+ " from MachineMon API: " +:+ snippet))
    ∧ "busy" = snippet +:+ rest
    ∧ String.length snippet = 4 `min` 200
    ∧ (4 ≤ 200 → snippet = "busy").
Proof.
  apply (error_status_message_snippet
           (sample_client (answering 503 "busy" (aiohttp.NotJson ""))) _ "hunter2"
           {| aiohttp.status := 503; aiohttp.text := "busy";
              aiohttp.body_json := aiohttp.NotJson "" |});
    [reflexivity | simpl; lia | simpl; lia].
Defined.

(** ** One attempt, further *)

Lemma attempt_shape (h : Host) (st : State) :
  let st' := (_async_checkin h st).2 in
  _lock (self st') = _lock (self st)
  ∧ _session_id (self st') = _session_id (self st)
  ∧ _password (self st') = _password (self st)
  ∧ _api (self st') = _api (self st)
  ∧ _unsub (self st') = _unsub (self st)
  ∧ ((_client_id (self st') = _client_id (self st)
      ∧ entry_data st' = entry_data st
      ∧ (effects st' = effects st ∨ ∃ level msg, effects st' = effects st ++ [Log level msg]))
     ∨ (∃ response,
          _lock (self st) = false
          ∧ async_checkin (_api (self st)) (payload_of h st) (_password (self st))
            = Returns response
          ∧ server_client_id_of response ≠ ""
          ∧ server_client_id_of response ≠ _client_id (self st)
          ∧ adopted (server_client_id_of response) st st')).
Proof.
  destruct (_lock (self st)) eqn:Hlock.
  { rewrite (attempt_skipped h st Hlock). cbn. rewrite Hlock. repeat split. auto. }
  rewrite (attempt_unfold h st Hlock).
  destruct (async_checkin _ _ _) as [response|e] eqn:Hcall.
  - rewrite complete_returns.
    change (_client_id (self (set_lock true st))) with (_client_id (self st)).
    destruct (PyStr.truthy (server_client_id_of response)) eqn:Ht;
      destruct (String.eqb_spec (server_client_id_of response) (_client_id (self st)))
        as [He|He]; cbn; repeat split; auto.
    right. exists response. repeat split; auto.
    by apply truthy_nonempty.
  - destruct (isinstance e MachineMonApiError) eqn:Hapi.
    + rewrite (complete_raises_typed e _ Hapi). cbn. repeat split.
      left. repeat split. right. eauto.
    + rewrite (complete_raises_other e _ Hapi). cbn. repeat split. auto.
Qed.

(** X6. Whatever an attempt meets, it leaves the lock as it found it (free
    after every attempt that took it), never touches the session id, the
    password, the client or the timer handle, adds at most one effect to
    those before it, and changes no key of the config entry other than
    [client_id]. *)
Theorem attempt_frame (h : Host) (st : State) :
  let st' := (_async_checkin h st).2 in
  _lock (self st') = _lock (self st)
  ∧ _session_id (self st') = _session_id (self st)
  ∧ _password (self st') = _password (self st)
  ∧ _api (self st') = _api (self st)
  ∧ _unsub (self st') = _unsub (self st)
  ∧ (∃ new, effects st' = effects st ++ new ∧ length new ≤ 1)
  ∧ ∀ k, k ≠ CONF_CLIENT_ID → entry_data st' !! k = entry_data st !! k.
Proof.
  destruct (attempt_shape h st) as (Hl & Hs & Hp & Ha & Hu & Hrest).
  cbn zeta. split_and!; [exact Hl|exact Hs|exact Hp|exact Ha|exact Hu| |].
  - destruct Hrest as [(_ & _ & [->|(lv & msg & ->)])|(r & _ & _ & _ & _ & _ & _ & ->)].
    + exists []. split; [by rewrite app_nil_r | simpl; lia].
    + eexists. split; [reflexivity|simpl; lia].
    + eexists. split; [reflexivity|simpl; lia].
  - intros k Hk.
    destruct Hrest as [(_ & -> & _)|(r & _ & _ & _ & _ & _ & -> & _)]; [done|].
    by rewrite lookup_insert_ne.
Qed.

(** X7. A response that was just reconciled changes nothing the second
    time: when two attempts in a row receive the same response object, the
    second one leaves the identifier, the config entry and the effects as
    the first one left them. *)
Theorem same_response_reconciled_once
    (h1 h2 : Host) (st : State) (response : dict) :
  let st1 := (_async_checkin h1 st).2 in
  _lock (self st) = false →
  async_checkin (_api (self st)) (payload_of h1 st) (_password (self st))
  = Returns response →
  async_checkin (_api (self st1)) (payload_of h2 st1) (_password (self st1))
  = Returns response →
  unchanged st1 (_async_checkin h2 st1).2.
Proof.
  intros st1 Hfree Hcall1 Hcall2.
  assert (_lock (self st1) = false) as Hfree1.
  { destruct (attempt_shape h1 st) as (Hl & _). fold st1 in Hl. congruence. }
  destruct (attempt_success h1 st response Hfree Hcall1) as (_ & Hnew & Hsame).
  destruct (attempt_success h2 st1 response Hfree1 Hcall2) as (_ & _ & Hsame2).
  fold st1 in Hnew, Hsame. apply Hsame2.
  destruct (decide (server_client_id_of response = "")) as [He|He]; [auto|].
  destruct (decide (server_client_id_of response = _client_id (self st))) as [Hc|Hc].
  - destruct (Hsame (or_intror Hc)) as (Hid & _). right. congruence.
  - destruct (Hnew He Hc) as (Hid & _). right. congruence.
Qed.

Lemma same_response_reconciled_once_witness :
  let st := sample_state (answering 200 ""
              (aiohttp.Decodes (json.JObj [("client_id", json.JStr "srv-123")]))) in
  let st1 := (_async_checkin sample_host st).2 in
  _client_id (self st1) = "srv-123" ∧ unchanged st1 (_async_checkin sample_host st1).2.
Proof.
  intros st st1. split; [reflexivity|].
  exact (same_response_reconciled_once sample_host sample_host st
           [("client_id", json.JStr "srv-123")] eq_refl eq_refl eq_refl).
Defined.

(** X8. Whenever an attempt changes the identifier, the new identifier is
    not empty, has no white space at either end, and is what the config
    entry holds under [client_id]; the last effect is the update call that
    stored it. *)
Theorem changed_identifier_is_trimmed (h : Host) (st : State) :
  let st' := (_async_checkin h st).2 in
  _client_id (self st') ≠ _client_id (self st) →
  _client_id (self st') ≠ ""
  ∧ PyStr.strip (_client_id (self st')) = _client_id (self st')
  ∧ (∀ c, first_char (_client_id (self st')) = Some c
          ∨ last_char (_client_id (self st')) = Some c →
          PyStr.isspace c = false)
  ∧ entry_data st' !! CONF_CLIENT_ID = Some (CStr (_client_id (self st')))
  ∧ last (effects st') = Some (UpdateEntry (entry_data st')).
Proof.
  intros st' Hchanged.
  destruct (attempt_shape h st) as (_ & _ & _ & _ & _ & [(Hid & _)|Hadopt]);
    [done|].
  destruct Hadopt as (response & _ & _ & Hne & _ & Hid & Hdata & Heff).
  fold st' in Hid, Hdata, Heff.
  assert (PyStr.strip (server_client_id_of response) = server_client_id_of response)
    as Hstrip by apply strip_idem.
  rewrite Hid. repeat split; try done.
  - intros c Hc. rewrite <- Hstrip in Hc. unfold server_client_id_of in Hc.
    rewrite strip_idem in Hc. by apply strip_ends in Hc.
  - rewrite Hdata. apply lookup_insert_eq.
  - rewrite Heff, Hdata. apply last_snoc.
Qed.

Lemma changed_identifier_is_trimmed_witness :
  let st := sample_state (answering 200 ""
              (aiohttp.Decodes (json.JObj [("client_id", json.JStr "  srv-123 ")]))) in
  PyStr.strip (_client_id (self (_async_checkin sample_host st).2))
  = _client_id (self (_async_checkin sample_host st).2).
Proof.
  intros st.
  apply (changed_identifier_is_trimmed sample_host st). discriminate.
Defined.

(** ** The loop, further *)

Lemma complete_shape (result : outcome dict) (st : State) :
  let st' := (checkin_complete result st).2 in
  _session_id (self st') = _session_id (self st)
  ∧ _password (self st') = _password (self st)
  ∧ _unsub (self st') = _unsub (self st)
  ∧ _base_url (_api (self st')) = _base_url (_api (self st))
  ∧ ((_client_id (self st') = _client_id (self st) ∧ entry_data st' = entry_data st)
     ∨ (_client_id (self st') ≠ ""
        ∧ entry_data st'
          = <[ CONF_CLIENT_ID := CStr (_client_id (self st')) ]> (entry_data st))).
Proof.
  destruct result as [response|e].
  - rewrite complete_returns.
    destruct (PyStr.truthy (server_client_id_of response)) eqn:Ht;
      destruct (negb _); cbn; split_and!; auto.
    right. split; [by apply truthy_nonempty|done].
  - destruct (isinstance e MachineMonApiError) eqn:Hapi.
    + rewrite (complete_raises_typed e _ Hapi). cbn. split_and!; auto.
    + rewrite (complete_raises_other e _ Hapi). cbn. split_and!; auto.
Qed.

(** What a step of the loop may do to the runtime state. *)
Lemma step_state (ev : event) (w w' : Loop) :
  step ev w = Some w' →
  _session_id (self (state w')) = _session_id (self (state w))
  ∧ _password (self (state w')) = _password (self (state w))
  ∧ _base_url (_api (self (state w'))) = _base_url (_api (self (state w)))
  ∧ ((_client_id (self (state w')) = _client_id (self (state w))
      ∧ entry_data (state w') = entry_data (state w))
     ∨ (task_event ev = true
        ∧ _client_id (self (state w')) ≠ ""
        ∧ entry_data (state w')
          = <[ CONF_CLIENT_ID := CStr (_client_id (self (state w'))) ]>
              (entry_data (state w)))).
Proof.
  intros Hstep. destruct ev as [| | |i|i h|i x]; simpl in Hstep.
  - injection Hstep as <-. cbn. split_and!; auto.
  - destruct (_unsub (self (state w))); injection Hstep as <-; cbn; split_and!; auto.
  - destruct (timers w); [done|]. injection Hstep as <-. cbn. split_and!; auto.
  - destruct (tasks w !! i) as [[| | |]|]; try done.
    unfold checkin_enter in Hstep.
    destruct (_lock (self (state w))); injection Hstep as <-; cbn; split_and!; auto.
  - destruct (tasks w !! i) as [[|cid sid| |]|]; try done.
    injection Hstep as <-. cbn. split_and!; auto.
  - destruct (tasks w !! i) as [[| |payload|]|]; try done.
    pose proof (complete_shape
                  (async_checkin
                     {| _session := fun _ => x;
                        _base_url := _base_url (_api (self (state w))) |}
                     payload (_password (self (state w)))) (state w))
      as (Hs & Hp & _ & Hb & Hrest).
    destruct (checkin_complete _ (state w)) as [r st].
    injection Hstep as <-. cbn in *. split_and!; auto.
    destruct Hrest as [?|[? ?]]; auto.
Qed.

Lemma step_synced (data : gmap string conf_value) (ev : event) (w w' : Loop) :
  synced data (state w) → step ev w = Some w' → synced data (state w').
Proof.
  intros [(v & Hv & Hid) Hother] Hstep.
  destruct (step_state ev w w' Hstep) as (_ & _ & _ & [(Hc & Hd)|(_ & Hne & Hd)]).
  - unfold synced. rewrite Hc, Hd. eauto.
  - unfold synced. rewrite Hd. split.
    + eexists. split; [apply lookup_insert_eq|done].
    + intros k Hk. rewrite lookup_insert_ne; [|done]. by apply Hother.
Qed.

Lemma run_induction (P : Loop → Prop) (evs : list event) (w w' : Loop) :
  (∀ ev w1 w2, P w1 → step ev w1 = Some w2 → P w2) →
  P w → run evs w = Some w' → P w'.
Proof.
  intros Hstep. revert w. induction evs as [|ev evs IH]; intros w Hw Hrun;
    simpl in Hrun.
  - by injection Hrun as <-.
  - destruct (step ev w) as [w1|] eqn:H1; [|done]. eauto.
Qed.

(** X9. In every state the loop reaches from a freshly built runtime, the
    [client_id] of the config entry is the identifier the runtime holds in
    memory, every other key of the entry is as it was at start, and the
    session id and the password never change. So a runtime built anew from
    the entry (a restart) starts with the latest identifier and the same
    password. *)
Theorem entry_follows_identifier
    (data : gmap string conf_value) (api : MachineMonApiClient) (uuid4 : string)
    (r : MachineMonRuntime) (evs : list event) (w : Loop) :
  MachineMonRuntime__init__ data api uuid4 = Some r →
  run evs (boot r data) = Some w →
  (∃ v, entry_data (state w) !! CONF_CLIENT_ID = Some v
        ∧ conf_str v = _client_id (self (state w)))
  ∧ (∀ k, k ≠ CONF_CLIENT_ID → entry_data (state w) !! k = data !! k)
  ∧ _session_id (self (state w)) = uuid4
  ∧ _password (self (state w)) = _password r
  ∧ ∀ api' uuid4',
      ∃ r', MachineMonRuntime__init__ (entry_data (state w)) api' uuid4' = Some r'
            ∧ _client_id r' = _client_id (self (state w))
            ∧ _password r' = _password (self (state w))
            ∧ _lock r' = false.
Proof.
  intros Hinit Hrun.
  assert (synced data (state w)
          ∧ _session_id (self (state w)) = uuid4
          ∧ _password (self (state w)) = _password r) as (Hsync & Hsid & Hpw).
  { apply (run_induction
             (fun w => synced data (state w)
                       ∧ _session_id (self (state w)) = uuid4
                       ∧ _password (self (state w)) = _password r)
             evs (boot r data) w); [| |exact Hrun].
    - intros ev w1 w2 (Hs & Hi & Hp) Hstep.
      destruct (step_state ev w1 w2 Hstep) as (Hi' & Hp' & _).
      split; [by eapply step_synced|]. split; congruence.
    - unfold MachineMonRuntime__init__ in Hinit.
      destruct (data !! CONF_CLIENT_ID) as [cid|] eqn:Hcid; [|done].
      destruct (data !! CONF_PASSWORD) as [pw|] eqn:Hpw; [|done].
      injection Hinit as <-. cbn. split; [|done].
      split; [eauto|done]. }
  destruct Hsync as [(v & Hv & Hid) Hother].
  split_and!; eauto.
  intros api' uuid4'. unfold MachineMonRuntime__init__ in *.
  rewrite Hv, (Hother CONF_PASSWORD) by done.
  destruct (data !! CONF_CLIENT_ID); [|done].
  destruct (data !! CONF_PASSWORD) as [pw|]; [|done].
  injection Hinit as <-. eexists. split; [reflexivity|]. cbn in *.
  split_and!; congruence.
Qed.

Lemma entry_follows_identifier_witness :
  let session := answering 200 ""
       (aiohttp.Decodes (json.JObj [("client_id", json.JStr "srv-123")])) in
  let x := aiohttp.Responds
       {| aiohttp.status := 200; aiohttp.text := "";
          aiohttp.body_json :=
            aiohttp.Decodes (json.JObj [("client_id", json.JStr "srv-123")]) |} in
  match run [Start; Run 0; Built 0 sample_host; Responded 0 x]
            (boot (sample_runtime session) sample_data) with
  | Some w => _client_id (self (state w)) = "srv-123"
              ∧ ∃ v, entry_data (state w) !! CONF_CLIENT_ID = Some v
                     ∧ conf_str v = _client_id (self (state w))
  | None => False
  end.
Proof.
  intros session x.
  destruct (run _ (boot (sample_runtime session) sample_data)) as [w|] eqn:Hrun;
    [|vm_compute in Hrun; discriminate].
  assert (MachineMonRuntime__init__ sample_data (sample_client session)
            (_session_id (sample_runtime session))
          = Some (sample_runtime session)) as Hinit by (vm_compute; reflexivity).
  split.
  - vm_compute in Hrun. injection Hrun as <-. reflexivity.
  - exact (proj1 (entry_follows_identifier _ _ _ _ _ _ Hinit Hrun)).
Defined.

Lemma flying_lookup (ts : list task) (i : nat) (t : task) :
  ts !! i = Some t → in_flight t = true → 1 ≤ flying ts.
Proof.
  revert i. induction ts as [|t0 ts IH]; intros [|i] Hi Ht; simpl in *; try done.
  - injection Hi as ->. rewrite Ht. lia.
  - specialize (IH i Hi Ht). lia.
Qed.

Lemma flying_two (ts : list task) (i j : nat) (ti tj : task) :
  i ≠ j → ts !! i = Some ti → ts !! j = Some tj →
  in_flight ti = true → in_flight tj = true → 2 ≤ flying ts.
Proof.
  revert i j. induction ts as [|t0 ts IH]; intros [|i] [|j] Hij Hi Hj Hti Htj;
    simpl in *; try done.
  - injection Hi as ->. rewrite Hti. pose proof (flying_lookup ts j tj Hj Htj). lia.
  - injection Hj as ->. rewrite Htj. pose proof (flying_lookup ts i ti Hi Hti). lia.
  - assert (i ≠ j) as Hij' by congruence.
    specialize (IH i j Hij' Hi Hj Hti Htj). lia.
Qed.

Lemma carries_ids_ext (st st' : State) (t : task) :
  _client_id (self st') = _client_id (self st) →
  _session_id (self st') = _session_id (self st) →
  carries_ids st t → carries_ids st' t.
Proof. intros Hc Hs. destruct t; simpl; by rewrite ?Hc, ?Hs. Qed.

Lemma step_carries_ids (ev : event) (w w' : Loop) :
  guard_inv w →
  (∀ i t, tasks w !! i = Some t → carries_ids (state w) t) →
  step ev w = Some w' →
  ∀ i t, tasks w' !! i = Some t → carries_ids (state w') t.
Proof.
  intros Hguard Hall Hstep i t Hi.
  assert (∀ j t0 t1 st, tasks w !! j = Some t0 →
            tasks (set_task j t1 st w) !! i = Some t →
            (i = j ∧ t = t1) ∨ (i ≠ j ∧ tasks w !! i = Some t)) as Hset.
  { intros j t0 t1 st Hj Hlook. simpl in Hlook.
    destruct (decide (i = j)) as [->|Hne].
    - rewrite list_lookup_insert_eq in Hlook by (by eapply lookup_lt_Some).
      injection Hlook as <-. by left.
    - rewrite list_lookup_insert_ne in Hlook by done. by right. }
  assert (∀ l, (l ++ [Created]) !! i = Some t → l !! i = Some t ∨ t = Created)
    as Happ.
  { intros l Hl. apply lookup_app_Some in Hl as [?|[_ Hl]]; [by left|].
    right. destruct (i - length l); simpl in Hl; [congruence|done]. }
  destruct ev as [| | |j|j h|j x]; simpl in Hstep.
  - injection Hstep as <-. simpl in *.
    destruct (Happ _ Hi) as [Hold| ->]; [|done].
    by apply (carries_ids_ext (state w)), Hall with i.
  - destruct (_unsub (self (state w))); injection Hstep as <-; simpl in *.
    + by apply (carries_ids_ext (state w)), Hall with i.
    + by apply Hall with i.
  - destruct (timers w); [done|]. injection Hstep as <-. simpl in *.
    destruct (Happ _ Hi) as [Hold| ->]; [|done]. by apply Hall with i.
  - destruct (tasks w !! j) as [[| | |]|] eqn:Hj; try done.
    unfold checkin_enter in Hstep.
    destruct (_lock (self (state w))) eqn:Hlock; injection Hstep as <-.
    + destruct (Hset _ _ _ _ Hj Hi) as [[-> ->]|[_ Hold]]; [done|].
      by apply Hall with i.
    + destruct (Hset _ _ _ _ Hj Hi) as [[-> ->]|[_ Hold]]; [done|].
      by apply (carries_ids_ext (state w)), Hall with i.
  - destruct (tasks w !! j) as [[|cid sid| |]|] eqn:Hj; try done.
    injection Hstep as <-.
    destruct (Hset _ _ _ _ Hj Hi) as [[-> ->]|[_ Hold]]; [|by apply Hall with i].
    apply (Hall _ _ Hj).
  - destruct (tasks w !! j) as [[| |payload|]|] eqn:Hj; try done.
    destruct (checkin_complete _ (state w)) as [r st] eqn:Hc.
    injection Hstep as <-.
    destruct (Hset _ _ _ _ Hj Hi) as [[-> ->]|[Hne Hold]]; [done|].
    destruct (in_flight t) eqn:Ht; [|by destruct t].
    pose proof (flying_two (tasks w) i j t (Requesting payload) Hne Hold Hj Ht eq_refl).
    unfold guard_inv in Hguard. destruct (_lock (self (state w))); lia.
Qed.

(** X10. In every state the loop reaches from a freshly built runtime, the
    attempt in flight works with the identifiers the runtime holds at that
    moment: the payload being built or sent carries the current client id
    and the session id fixed at construction. *)
Theorem in_flight_payload_is_current
    (data : gmap string conf_value) (api : MachineMonApiClient) (uuid4 : string)
    (r : MachineMonRuntime) (evs : list event) (w : Loop) :
  MachineMonRuntime__init__ data api uuid4 = Some r →
  run evs (boot r data) = Some w →
  ∀ i,
    (∀ client_id session_id, tasks w !! i = Some (Building client_id session_id) →
       client_id = _client_id (self (state w)) ∧ session_id = uuid4)
    ∧ (∀ payload, tasks w !! i = Some (Requesting payload) →
         Payload.client_id payload = _client_id (self (state w))
         ∧ Payload.session_id payload = uuid4).
Proof.
  intros Hinit Hrun.
  assert (guard_inv w
          ∧ (∀ i t, tasks w !! i = Some t → carries_ids (state w) t)
          ∧ _session_id (self (state w)) = uuid4) as (_ & Hall & Hsid).
  { apply (run_induction
             (fun w => guard_inv w
                       ∧ (∀ i t, tasks w !! i = Some t → carries_ids (state w) t)
                       ∧ _session_id (self (state w)) = uuid4)
             evs (boot r data) w); [| |exact Hrun].
    - intros ev w1 w2 (Hg & Ha & Hs) Hstep. split_and!.
      + by eapply step_guard_inv.
      + by eapply step_carries_ids.
      + destruct (step_state ev w1 w2 Hstep) as (Hs' & _). congruence.
    - split_and!.
      + unfold guard_inv. simpl. by rewrite (init_unlocked _ _ _ _ Hinit).
      + intros i t Hi. done.
      + unfold MachineMonRuntime__init__ in Hinit.
        destruct (data !! CONF_CLIENT_ID); [|done].
        destruct (data !! CONF_PASSWORD); [|done]. by injection Hinit as <-. }
  intros i. split.
  - intros cid sid Hi. destruct (Hall _ _ Hi) as [-> ->]. done.
  - intros payload Hi. destruct (Hall _ _ Hi) as [-> ->]. done.
Qed.

Lemma in_flight_payload_is_current_witness :
  let session := answering 200 "" (aiohttp.Decodes (json.JObj [])) in
  match run [Start; Run 0; Built 0 sample_host]
            (boot (sample_runtime session) sample_data) with
  | Some w => ∀ payload, tasks w !! 0 = Some (Requesting payload) →
                Payload.client_id payload = _client_id (self (state w))
                ∧ Payload.session_id payload = _session_id (sample_runtime session)
  | None => False
  end.
Proof.
  intros session.
  destruct (run _ (boot (sample_runtime session) sample_data)) as [w|] eqn:Hrun;
    [|vm_compute in Hrun; discriminate].
  assert (MachineMonRuntime__init__ sample_data (sample_client session)
            (_session_id (sample_runtime session))
          = Some (sample_runtime session)) as Hinit by (vm_compute; reflexivity).
  exact (proj2 (in_flight_payload_is_current _ _ _ _ _ _ Hinit Hrun 0)).
Defined.

Lemma step_unsub (ev : event) (w w' : Loop) :
  task_event ev = true → step ev w = Some w' →
  _unsub (self (state w')) = _unsub (self (state w)) ∧ timers w' = timers w.
Proof.
  intros Hev Hstep. destruct ev as [| | |i|i h|i x]; try done; simpl in Hstep.
  - destruct (tasks w !! i) as [[| | |]|]; try done.
    unfold checkin_enter in Hstep.
    by destruct (_lock (self (state w))); injection Hstep as <-.
  - destruct (tasks w !! i) as [[|cid sid| |]|]; try done.
    by injection Hstep as <-.
  - destruct (tasks w !! i) as [[| |payload|]|]; try done.
    pose proof (complete_shape
                  (async_checkin
                     {| _session := fun _ => x;
                        _base_url := _base_url (_api (self (state w))) |}
                     payload (_password (self (state w)))) (state w))
      as (_ & _ & Hu & _).
    destruct (checkin_complete _ (state w)) as [r st].
    by injection Hstep as <-.
Qed.

(** X11. As long as [async_start] is only called while no timer handle is
    held, the runtime has exactly one live timer while it holds a handle
    and none otherwise; so after [async_stop] no timer is left and no
    further tick can fire. *)
Theorem stop_ends_the_ticks
    (r : MachineMonRuntime) (data : gmap string conf_value)
    (evs : list event) (w : Loop) :
  _unsub r = false →
  disciplined evs (boot r data) = true →
  run evs (boot r data) = Some w →
  timers w = (if _unsub (self (state w)) then 1 else 0)
  ∧ timers (async_stop w) = 0
  ∧ step Stop w = Some (async_stop w)
  ∧ step Tick (async_stop w) = None.
Proof.
  intros Hu Hdisc Hrun.
  assert (timers w = if _unsub (self (state w)) then 1 else 0) as Ht.
  { revert Hdisc Hrun.
    assert (timers (boot r data)
            = if _unsub (self (state (boot r data))) then 1 else 0) as H0
      by (simpl; by rewrite Hu).
    revert H0. generalize (boot r data) as w0.
    induction evs as [|ev evs IH]; intros w0 H0 Hdisc Hrun; simpl in *.
    - by injection Hrun as <-.
    - destruct (step ev w0) as [w1|] eqn:Hstep; [|done].
      apply andb_prop in Hdisc as [Hev Hdisc].
      apply (IH w1); [|done|done].
      destruct ev as [| | |i|i h|i x].
      + simpl in Hstep. injection Hstep as <-. simpl.
        apply negb_true_iff in Hev. rewrite Hev in H0. by rewrite H0.
      + simpl in Hstep. destruct (_unsub (self (state w0))) eqn:Hus;
          injection Hstep as <-; simpl; [by rewrite H0|by rewrite Hus].
      + simpl in Hstep. destruct (timers w0) eqn:Htm; [done|].
        injection Hstep as <-. simpl. exact H0.
      + destruct (step_unsub (Run i) _ _ eq_refl Hstep) as [-> ->]. done.
      + destruct (step_unsub (Built i h) _ _ eq_refl Hstep) as [-> ->]. done.
      + destruct (step_unsub (Responded i x) _ _ eq_refl Hstep) as [-> ->]. done. }
  split; [exact Ht|].
  assert (timers (async_stop w) = 0) as Hz.
  { unfold async_stop. destruct (_unsub (self (state w))); simpl; by rewrite Ht. }
  split_and!; [exact Hz| |].
  - unfold async_stop. simpl. by destruct (_unsub (self (state w))).
  - simpl. by rewrite Hz.
Qed.

Lemma stop_ends_the_ticks_witness :
  let session := answering 200 "" (aiohttp.Decodes (json.JObj [])) in
  match run [Start; Tick; Run 0; Stop; Start]
            (boot (sample_runtime session) sample_data) with
  | Some w => timers w = 1 ∧ step Tick (async_stop w) = None
  | None => False
  end.
Proof.
  intros session.
  destruct (run _ (boot (sample_runtime session) sample_data)) as [w|] eqn:Hrun;
    [|vm_compute in Hrun; discriminate].
  pose proof (stop_ends_the_ticks (sample_runtime session) sample_data
                [Start; Tick; Run 0; Stop; Start] w
                eq_refl eq_refl Hrun) as (Ht & _ & _ & Htick).
  split; [|exact Htick].
  vm_compute in Hrun. injection Hrun as <-. reflexivity.
Defined.

(** X12. [async_start] does not look at the handle it holds: started twice
    and stopped, the runtime holds no handle but one timer is still live, so
    ticks go on, and stopping again releases nothing. *)
Theorem second_start_leaves_a_timer (w : Loop) :
  ∃ w', run [Start; Start; Stop] w = Some w'
        ∧ _unsub (self (state w')) = false
        ∧ timers w' = S (timers w)
        ∧ is_Some (step Tick w')
        ∧ step Stop w' = Some w'.
Proof.
  eexists. split; [reflexivity|]. cbn. split_and!; done.
Qed.

(** X13. [async_stop] does not reach into an attempt: stopping before or
    after any step of a task gives the same loop state, so an attempt that
    is under way when the runtime is stopped ends exactly as it would have. *)
Theorem stop_commutes_with_task_steps (ev : event) (w : Loop) :
  task_event ev = true →
  run [Stop; ev] w = run [ev; Stop] w.
Proof.
  intros Hev. destruct ev as [| | |i|i h|i x]; try done; simpl.
  - destruct (_unsub (self (state w))) eqn:Hu; simpl;
      destruct (tasks w !! i) as [[| | |]|]; try done;
      unfold checkin_enter; simpl;
      destruct (_lock (self (state w))); simpl; by rewrite ?Hu.
  - destruct (_unsub (self (state w))) eqn:Hu; simpl;
      destruct (tasks w !! i) as [[|cid sid| |]|]; try done; simpl; by rewrite ?Hu.
  - destruct (_unsub (self (state w))) eqn:Hu; simpl;
      destruct (tasks w !! i) as [[| |payload|]|]; try done.
    + set (result := async_checkin _ payload _).
      destruct result as [response|e]; simpl.
      * destruct (PyStr.truthy _ && negb _); simpl; by rewrite ?Hu.
      * destruct (isinstance e MachineMonAuthError); simpl; [by rewrite ?Hu|].
        destruct (isinstance e MachineMonApiError); simpl; by rewrite ?Hu.
    + set (result := async_checkin _ payload _).
      pose proof (complete_shape result (state w)) as (_ & _ & Hu' & _).
      destruct (checkin_complete result (state w)) as [r st]. simpl in *.
      by rewrite Hu', Hu.
Qed.

Lemma stop_commutes_with_task_steps_witness :
  let session := answering 200 "" (aiohttp.Decodes (json.JObj [])) in
  let w := async_start (boot (sample_runtime session) sample_data) in
  run [Stop; Run 0] w = run [Run 0; Stop] w.
Proof.
  intros session w. exact (stop_commutes_with_task_steps (Run 0) w eq_refl).
Defined.

(** ** Interface addresses and the payload, further *)

Lemma contributes_text (a b : psutil.snicaddr) (s : string) :
  PyStr.strip (psutil.address a) = PyStr.strip (psutil.address b) →
  contributes a s → contributes b s.
Proof.
  unfold contributes, parser_input. by intros ->.
Qed.

(** X14. The interface addresses of the payload depend only on the set of
    trimmed address texts the host reports: the order of the interfaces and
    of their addresses, the interface an address sits on, repetitions, and
    white space around a text make no difference. *)
Theorem interface_ips_depend_on_reported_texts
    (client_id session_id : string) (h1 h2 : Host) :
  (∀ text, reports_text h1 text ↔ reports_text h2 text) →
  Payload.interface_ips (_build_checkin_payload client_id session_id h1)
  = Payload.interface_ips (_build_checkin_payload client_id session_id h2).
Proof.
  intros Hsame. cbn [_build_checkin_payload Payload.interface_ips].
  apply interface_ips_ext. intros s. rewrite !interface_ips_elem.
  assert (∀ ha hb, (∀ text, reports_text ha text → reports_text hb text) →
            (∃ addr, reported ha addr ∧ contributes addr s) →
            ∃ addr, reported hb addr ∧ contributes addr s) as Hone.
  { intros ha hb Hsub (addr & Hrep & Hc).
    destruct (Hsub (PyStr.strip (psutil.address addr))) as (addr' & Hrep' & Heq);
      [by exists addr|].
    exists addr'. split; [done|]. by apply (contributes_text addr). }
  split; apply Hone; intros text; by apply Hsame.
Qed.

Lemma interface_ips_depend_on_reported_texts_witness :
  Payload.interface_ips
    (_build_checkin_payload "local-abc" "s-1"
       (host_reporting [("eth0", [nic "10.0.0.2"; nic "192.168.1.10"])]))
  = Payload.interface_ips
      (_build_checkin_payload "local-abc" "s-1"
         (host_reporting [("wlan0", [nic " 192.168.1.10"]);
                          ("eth0", [nic "10.0.0.2"; nic "10.0.0.2 "])])).
Proof.
  apply interface_ips_depend_on_reported_texts.
  intros text. unfold reports_text, reported. simpl. split.
  - intros (addr & (name & l & Hl & Hin) & <-).
    apply list_elem_of_singleton in Hl as [= -> ->].
    apply elem_of_cons in Hin as [->|Hin].
    + exists (nic "10.0.0.2"). split; [|reflexivity].
      exists "eth0", [nic "10.0.0.2"; nic "10.0.0.2 "].
      split; [right; left|left].
    + apply list_elem_of_singleton in Hin as ->.
      exists (nic " 192.168.1.10"). split; [|reflexivity].
      exists "wlan0", [nic " 192.168.1.10"]. split; left.
  - intros (addr & (name & l & Hl & Hin) & <-).
    apply elem_of_cons in Hl as [[= -> ->]|Hl].
    + apply list_elem_of_singleton in Hin as ->.
      exists (nic "192.168.1.10"). split; [|reflexivity].
      exists "eth0", [nic "10.0.0.2"; nic "192.168.1.10"].
      split; [left|right; left].
    + apply list_elem_of_singleton in Hl as [= -> ->].
      exists (nic "10.0.0.2"). split.
      * exists "eth0", [nic "10.0.0.2"; nic "192.168.1.10"]. split; left.
      * apply elem_of_cons in Hin as [->|Hin]; [reflexivity|].
        apply list_elem_of_singleton in Hin as ->. reflexivity.
Defined.

(** X15. The payload lists no interface address exactly when every
    reported address either does not parse or is a loopback address; in
    particular a host that reports nothing gets the empty list. *)
Theorem interface_ips_empty_iff (client_id session_id : string) (h : Host) :
  Payload.interface_ips (_build_checkin_payload client_id session_id h) = []
  ↔ ∀ addr parsed,
      reported h addr →
      ipaddress.ip_address (parser_input addr) = Some parsed →
      ipaddress.is_loopback parsed = true.
Proof.
  cbn [_build_checkin_payload Payload.interface_ips]. split.
  - intros Hnil addr parsed Hrep Hparse.
    destruct (ipaddress.is_loopback parsed) eqn:Hloop; [done|].
    assert (ipaddress.compressed parsed ∈ _interface_ips h) as Hin.
    { apply interface_ips_elem. exists addr. split; [done|]. by exists parsed. }
    rewrite Hnil in Hin. by apply not_elem_of_nil in Hin.
  - intros Hall. destruct (_interface_ips h) as [|s l] eqn:Hips; [done|].
    assert (s ∈ _interface_ips h) as Hin by (rewrite Hips; left).
    apply interface_ips_elem in Hin as (addr & Hrep & parsed & Hparse & Hloop & _).
    rewrite (Hall addr parsed Hrep Hparse) in Hloop. done.
Qed.

Lemma lower_char_idem (c : ascii) :
  PyStr.lower_char (PyStr.lower_char c) = PyStr.lower_char c.
Proof. destruct c as [[] [] [] [] [] [] [] []]; reflexivity. Qed.

Lemma lower_idem (s : string) : PyStr.lower (PyStr.lower s) = PyStr.lower s.
Proof.
  induction s as [|c s IH]; simpl; [done|]. by rewrite lower_char_idem, IH.
Qed.

(** X16. The [os] and [arch] of every built payload are in lower case,
    whatever the platform reports, and the three disk figures are those of
    one disk: the one at [C:\] exactly when that [os] is ["windows"], the
    one at [/] otherwise. *)
Theorem payload_platform_fields_lower_case
    (client_id session_id : string) (h : Host) :
  let p := _build_checkin_payload client_id session_id h in
  let usage :=
    disk_usage h (if String.eqb (Payload.os p) "windows"
                  then String "C" (String ":" (String PyStr.backslash ""))
                  else "/") in
  PyStr.lower (Payload.os p) = Payload.os p
  ∧ PyStr.lower (Payload.arch p) = Payload.arch p
  ∧ disk_pct (Payload.metrics p) = psutil.sdiskusage.percent usage
  ∧ disk_total_bytes (Payload.metrics p) = psutil.sdiskusage.total usage
  ∧ disk_used_bytes (Payload.metrics p) = psutil.sdiskusage.used usage.
Proof.
  cbn. split_and!; [apply lower_idem|apply lower_idem|..];
    by destruct (String.eqb _ _).
Qed.

(** ** The config flow *)

(** X17. A normalized URL never ends in a slash and never begins with
    white space; it is the trimmed input without its trailing slashes, and
    the API client built on it uses it as its base URL unchanged. *)
Theorem normalized_url_shape (session : aiohttp.ClientSession) (url : string) :
  let normalized := _normalize_url url in
  last_char normalized ≠ Some "/"%char
  ∧ (∀ c, first_char normalized = Some c → PyStr.isspace c = false)
  ∧ (∃ n, PyStr.strip url = normalized +:+ repeat_char "/" n)
  ∧ _base_url (MachineMonApiClient__init__ session normalized) = normalized.
Proof.
  unfold _normalize_url. cbn [MachineMonApiClient__init__ _base_url].
  rewrite !rstrip_char_rdrop. split_and!.
  - intros H%rdrop_last. by rewrite Ascii.eqb_refl in H.
  - intros c Hc%rdrop_first. apply (strip_ends url). by left.
  - destruct (rdrop_split (Ascii.eqb "/") (PyStr.strip url)) as (suf & Hs & Hall).
    exists (String.length suf). by rewrite <- (all_char_repeat _ _ Hall).
  - apply rdrop_idem.
Qed.

Lemma flow_data_lookups (env : FlowEnv) (u : UserInput.t) :
  flow_data env u !! CONF_VERIFY_SSL = Some (CBool (UserInput.verify_ssl u))
  ∧ flow_data env u !! CONF_COLLECTION_URL
    = Some (CStr (_normalize_url (UserInput.collection_url u)))
  ∧ flow_data env u !! CONF_CLIENT_ID = Some (CStr (flow_client_uuid4 env))
  ∧ flow_data env u !! CONF_PASSWORD = Some (CStr (UserInput.password u)).
Proof. by split_and!. Qed.

Lemma validate_flow_data (env : FlowEnv) (u : UserInput.t) :
  _validate_input env (flow_data env u)
  = match async_health_check (flow_client env u) with
    | Raises err => validation_of_error err
    | Returns _ =>
        match async_checkin (flow_client env u) (flow_payload env)
                            (UserInput.password u) with
        | Raises err => validation_of_error err
        | Returns _ => Validated
        end
    end.
Proof.
  destruct (flow_data_lookups env u) as (Hv & Hu & Hc & Hp).
  unfold _validate_input. rewrite Hv, Hu, Hc, Hp. reflexivity.
Qed.

Lemma validation_of_error_code (err : exn) :
  match validation_of_error err with
  | RaisesInvalidAuth e => e = err ∧ error_code err = "invalid_auth"
  | RaisesCannotConnect e => e = err ∧ error_code err = "cannot_connect"
  | RaisesUncaught e => e = err ∧ error_code err = "unknown"
  | Validated | RaisesMalformed => False
  end.
Proof.
  unfold validation_of_error, error_code.
  destruct (isinstance err MachineMonAuthError); [done|].
  destruct (isinstance err MachineMonApiError) eqn:Hapi.
  - by rewrite orb_true_r.
  - rewrite orb_false_r.
    destruct (isinstance err MachineMonConnectionError) eqn:Hconn; [|done].
    destruct err as [[] msg]; by vm_compute in Hapi, Hconn.
Qed.

(** X18. Validation of the data the user step builds passes exactly when
    the health check and then the check-in both succeed. The first call
    that fails decides the outcome alone (after a failed health check the
    check-in is not looked at): an auth error becomes [InvalidAuth], a
    connection or API error [CannotConnect], and any other exception
    passes through unchanged. *)
Theorem validate_input_outcomes (env : FlowEnv) (u : UserInput.t) :
  let client := flow_client env u in
  let checkin := async_checkin client (flow_payload env) (UserInput.password u) in
  let result := _validate_input env (flow_data env u) in
  (result = Validated
   ↔ async_health_check client = Returns tt ∧ ∃ response, checkin = Returns response)
  ∧ (∀ err, async_health_check client = Raises err
            ∨ (async_health_check client = Returns tt ∧ checkin = Raises err) →
       (isinstance err MachineMonAuthError = true ∧ result = RaisesInvalidAuth err)
       ∨ (isinstance err MachineMonAuthError = false
          ∧ isinstance err MachineMonApiError = true
          ∧ result = RaisesCannotConnect err)
       ∨ (isinstance err MachineMonApiError = false ∧ result = RaisesUncaught err)).
Proof.
  cbn zeta. rewrite validate_flow_data. split.
  - destruct (async_health_check _) as [[]|err].
    + destruct (async_checkin _ _ _) as [response|err].
      * split; [eauto|done].
      * pose proof (validation_of_error_code err) as Hcode.
        split; [intros H; by rewrite H in Hcode|]. by intros [_ [? ?]].
    + pose proof (validation_of_error_code err) as Hcode.
      split; [intros H; by rewrite H in Hcode|]. by intros [? _].
  - intros err Hfirst.
    assert (match async_health_check (flow_client env u) with
            | Raises err0 => validation_of_error err0
            | Returns _ =>
                match async_checkin (flow_client env u) (flow_payload env)
                                    (UserInput.password u) with
                | Raises err0 => validation_of_error err0
                | Returns _ => Validated
                end
            end = validation_of_error err) as ->.
    { destruct Hfirst as [->|[-> ->]]; reflexivity. }
    unfold validation_of_error.
    destruct (isinstance err MachineMonAuthError) eqn:Hauth; [by left|].
    destruct (isinstance err MachineMonApiError) eqn:Hapi.
    + right; left. by rewrite orb_true_r.
    + right; right. rewrite orb_false_r.
      destruct (isinstance err MachineMonConnectionError) eqn:Hconn; [|done].
      destruct err as [[] msg]; by vm_compute in Hapi, Hconn.
Qed.

Lemma validate_input_outcomes_witness :
  _validate_input (sample_env (answering 401 "" (aiohttp.NotJson ""))) 
                  (flow_data (sample_env (answering 401 "" (aiohttp.NotJson ""))) sample_input)
  = RaisesInvalidAuth (Exn MachineMonAuthError "Invalid client password").
Proof.
  destruct (proj2 (validate_input_outcomes
                     (sample_env (answering 401 "" (aiohttp.NotJson ""))) sample_input)
                  (Exn MachineMonAuthError "Invalid client password")
                  (or_introl eq_refl)) as [[_ H]|[(H & _)|(H & _)]];
    [exact H|discriminate H|discriminate H].
Defined.

(** X19. When the user step creates an entry, validation has passed and
    the unique id was free; the entry holds the normalized URL, the password
    and the TLS flag as entered and a fresh identifier, its unique id is the
    normalized URL in lower case, and both the runtime constructor and
    [async_setup_entry] accept it: the runtime starts with that identifier
    and that password. *)
Theorem created_entry_is_usable
    (env : FlowEnv) (u : UserInput.t) (unique_id title : string)
    (data : gmap string conf_value) :
  async_step_user env (Some u) = CreateEntry unique_id title data →
  _validate_input env data = Validated
  ∧ unique_id = PyStr.lower (_normalize_url (UserInput.collection_url u))
  ∧ (unique_id ∉ flow_configured env)
  ∧ data !! CONF_COLLECTION_URL
    = Some (CStr (_normalize_url (UserInput.collection_url u)))
  ∧ data !! CONF_PASSWORD = Some (CStr (UserInput.password u))
  ∧ data !! CONF_VERIFY_SSL = Some (CBool (UserInput.verify_ssl u))
  ∧ data !! CONF_CLIENT_ID = Some (CStr (flow_client_uuid4 env))
  ∧ (∀ api uuid4,
       ∃ r, MachineMonRuntime__init__ data api uuid4 = Some r
            ∧ _client_id r = flow_client_uuid4 env
            ∧ _password r = UserInput.password u)
  ∧ ∀ get_session uuid4 entry_id hass_data,
      is_Some (async_setup_entry get_session uuid4 entry_id data hass_data).
Proof.
  unfold async_step_user. cbv zeta.
  destruct (bool_decide _) eqn:Hconf; [done|].
  apply bool_decide_eq_false in Hconf.
  destruct (_validate_input env (flow_data env u)) eqn:Hval; try done.
  destruct (flow_urlsplit_hostname env _) as [hostname|err]; [|done].
  intros [= <- _ <-].
  destruct (flow_data_lookups env u) as (Hv & Hu & Hc & Hp).
  split_and!; try done.
  intros api uuid4. unfold MachineMonRuntime__init__. rewrite Hc, Hp.
  eexists. by split.
Qed.

Lemma created_entry_is_usable_witness :
  let env := sample_env (answering 200 "" (aiohttp.Decodes (json.JObj []))) in
  flow_data env sample_input !! CONF_COLLECTION_URL
  = Some (CStr "https://mm.example.org")
  ∧ _validate_input env (flow_data env sample_input) = Validated.
Proof.
  intros env.
  pose proof (created_entry_is_usable env sample_input
                "https://mm.example.org" "MachineMon Client (mm.example.org)"
                (flow_data env sample_input) eq_refl)
    as (Hval & _ & _ & Hurl & _).
  split; [exact Hurl | exact Hval].
Defined.

(** X20. The user step never lets an exception of the two API calls out.
    Without input it shows the empty form; for a unique id that is already
    configured it aborts whatever the server would answer; otherwise the
    first call that fails puts one code under [base]: [invalid_auth] for an
    auth error, [cannot_connect] for a connection or API error, [unknown]
    for anything else. *)
Theorem user_step_error_codes (env : FlowEnv) (u : UserInput.t) :
  let unique_id := PyStr.lower (_normalize_url (UserInput.collection_url u)) in
  let client := flow_client env u in
  async_step_user env None = ShowForm ∅
  ∧ (unique_id ∈ flow_configured env →
     async_step_user env (Some u) = Abort "already_configured")
  ∧ (unique_id ∉ flow_configured env →
     ∀ err,
       async_health_check client = Raises err
       ∨ (async_health_check client = Returns tt
          ∧ async_checkin client (flow_payload env) (UserInput.password u)
            = Raises err) →
       async_step_user env (Some u) = ShowForm {[ "base" := error_code err ]}).
Proof.
  cbn zeta. split_and!; [done| |].
  - intros Hin. unfold async_step_user. cbv zeta. by rewrite bool_decide_eq_true_2.
  - intros Hnot err Hfirst. unfold async_step_user. cbv zeta.
    rewrite bool_decide_eq_false_2 by done.
    rewrite validate_flow_data.
    assert (match async_health_check (flow_client env u) with
            | Raises err0 => validation_of_error err0
            | Returns _ =>
                match async_checkin (flow_client env u) (flow_payload env)
                                    (UserInput.password u) with
                | Raises err0 => validation_of_error err0
                | Returns _ => Validated
                end
            end = validation_of_error err) as ->.
    { destruct Hfirst as [->|[-> ->]]; reflexivity. }
    pose proof (validation_of_error_code err) as Hcode.
    destruct (validation_of_error err); try done; by destruct Hcode as [_ ->].
Qed.

Lemma user_step_error_codes_witness :
  async_step_user (sample_env (answering 200 "OK" (aiohttp.NotJson "Expecting value")))
                  (Some sample_input)
  = ShowForm {[ "base" := "unknown" ]}.
Proof.
  exact (proj2 (proj2 (user_step_error_codes
                         (sample_env (answering 200 "OK" (aiohttp.NotJson "Expecting value")))
                         sample_input))
               (not_elem_of_empty _)
               (Exn JSONDecodeError "Expecting value") (or_introl eq_refl)).
Defined.

(** ** Setting up and unloading *)

Lemma registered_insert (entry_id : string) (w : Loop)
      (domain : gmap string (gmap string Loop))
      (hass_data : gmap string (gmap string (gmap string Loop))) :
  registered entry_id
    (<[ DOMAIN := <[ entry_id := {[ RUNTIME := w ]} ]> domain ]> hass_data)
  = Some w.
Proof.
  unfold registered. rewrite !lookup_insert_eq. apply lookup_singleton_eq.
Qed.

(** X21. Setting an entry up succeeds exactly when its data holds a string
    URL, a client id and a password. It then registers, under the domain and
    the entry id, a runtime built from the entry that holds a timer handle
    with one live timer, has one check-in scheduled and none under way, and
    leaves every other entry and every other key of [hass.data] alone. *)
Theorem setup_registers_started_runtime
    (get_session : conf_value -> aiohttp.ClientSession) (uuid4 entry_id : string)
    (data : gmap string conf_value)
    (hass_data : gmap string (gmap string (gmap string Loop))) :
  (is_Some (async_setup_entry get_session uuid4 entry_id data hass_data)
   ↔ (∃ url, data !! CONF_COLLECTION_URL = Some (CStr url))
     ∧ is_Some (data !! CONF_CLIENT_ID) ∧ is_Some (data !! CONF_PASSWORD))
  ∧ ∀ hass_data',
      async_setup_entry get_session uuid4 entry_id data hass_data = Some hass_data' →
      (∃ w, registered entry_id hass_data' = Some w
            ∧ tasks w = [Created] ∧ timers w = 1
            ∧ _unsub (self (state w)) = true ∧ _lock (self (state w)) = false
            ∧ _session_id (self (state w)) = uuid4
            ∧ entry_data (state w) = data
            ∧ conf_str <$> data !! CONF_CLIENT_ID = Some (_client_id (self (state w)))
            ∧ conf_str <$> data !! CONF_PASSWORD = Some (_password (self (state w))))
      ∧ (∀ other, other ≠ entry_id →
           registered other hass_data' = registered other hass_data)
      ∧ (∀ key, key ≠ DOMAIN → hass_data' !! key = hass_data !! key).
Proof.
  unfold async_setup_entry, MachineMonRuntime__init__. split.
  - destruct (data !! CONF_COLLECTION_URL) as [[url|b]|];
      destruct (data !! CONF_CLIENT_ID) as [cid|];
      destruct (data !! CONF_PASSWORD) as [pw|]; split;
      try (by intros [? [=]]); try (by intros [[? [=]] _]);
      try (by intros (_ & [? [=]] & _)); try (by intros (_ & _ & [? [=]])).
    intros _. split_and!; eauto.
  - intros hass_data'.
    destruct (data !! CONF_COLLECTION_URL) as [[url|b]|]; try done.
    destruct (data !! CONF_CLIENT_ID) as [cid|] eqn:Hcid; try done.
    destruct (data !! CONF_PASSWORD) as [pw|] eqn:Hpw; try done.
    intros [= <-]. split_and!.
    + eexists. split; [apply registered_insert|]. cbn. by split_and!.
    + intros other Hother. unfold registered. rewrite lookup_insert_eq.
      rewrite lookup_insert_ne by done.
      destruct (hass_data !! DOMAIN) as [domain|]; [done|].
      simpl. by rewrite lookup_empty.
    + intros key Hkey. by rewrite lookup_insert_ne.
Qed.

Lemma setup_registers_started_runtime_witness :
  let session := answering 200 "" (aiohttp.Decodes (json.JObj [])) in
  is_Some (async_setup_entry (fun _ => session) "u-1" "entry-1" sample_data ∅).
Proof.
  intros session.
  apply (proj1 (setup_registers_started_runtime (fun _ => session) "u-1" "entry-1"
                  sample_data ∅)).
  split_and!; by eexists.
Defined.

(** X22. Unloading an entry right after setting it up gives [hass.data]
    back as it was, provided the entry id was not registered before and the
    domain did not hold an empty dict; the runtime it stops holds no handle
    and has no live timer, and its scheduled check-in is still there. *)
Theorem setup_then_unload_restores
    (get_session : conf_value -> aiohttp.ClientSession) (uuid4 entry_id : string)
    (data : gmap string conf_value)
    (hass_data hass_data' : gmap string (gmap string (gmap string Loop))) :
  async_setup_entry get_session uuid4 entry_id data hass_data = Some hass_data' →
  (∀ domain, hass_data !! DOMAIN = Some domain →
             domain ≠ ∅ ∧ domain !! entry_id = None) →
  ∃ w, async_unload_entry entry_id hass_data' = Some (hass_data, w)
       ∧ tasks w = [Created] ∧ timers w = 0
       ∧ _unsub (self (state w)) = false.
Proof.
  unfold async_setup_entry, MachineMonRuntime__init__.
  destruct (data !! CONF_COLLECTION_URL) as [[url|b]|]; try done.
  destruct (data !! CONF_CLIENT_ID) as [cid|]; try done.
  destruct (data !! CONF_PASSWORD) as [pw|]; try done.
  intros [= <-] Hfresh.
  unfold async_unload_entry. rewrite !lookup_insert_eq, lookup_singleton_eq.
  eexists. split; [f_equal; apply (f_equal2 pair); [|reflexivity] | by cbn].
  destruct (hass_data !! DOMAIN) as [domain|] eqn:Hdom; simpl.
  - destruct (Hfresh domain eq_refl) as [Hne Hnone].
    rewrite delete_insert_eq, (delete_id _ _ Hnone).
    rewrite bool_decide_eq_false_2 by done.
    rewrite insert_insert_eq. by apply insert_id.
  - rewrite delete_insert_eq, delete_empty.
    rewrite bool_decide_eq_true_2 by done.
    rewrite delete_insert_eq. by apply delete_id.
Qed.

Lemma setup_then_unload_restores_witness :
  let session := answering 200 "" (aiohttp.Decodes (json.JObj [])) in
  match async_setup_entry (fun _ => session) "u-1" "entry-1" sample_data ∅ with
  | Some hass_data' =>
      ∃ w, async_unload_entry "entry-1" hass_data' = Some (∅, w)
           ∧ tasks w = [Created] ∧ timers w = 0 ∧ _unsub (self (state w)) = false
  | None => False
  end.
Proof.
  intros session.
  destruct (async_setup_entry (fun _ => session) "u-1" "entry-1" sample_data ∅)
    as [hass_data'|] eqn:Hsetup; [|vm_compute in Hsetup; discriminate].
  apply (setup_then_unload_restores (fun _ => session) "u-1" "entry-1"
           sample_data ∅ hass_data' Hsetup).
  intros domain Hdom. by rewrite lookup_empty in Hdom.
Defined.

(** X23. Unloading fails exactly when no runtime is registered for the
    entry. When it succeeds it stops the registered runtime without touching
    its tasks, removes the entry, leaves the other entries and the other
    keys of [hass.data] alone, and never leaves an empty dict under the
    domain. *)
Theorem unload_removes_and_cleans
    (entry_id : string)
    (hass_data : gmap string (gmap string (gmap string Loop))) :
  (async_unload_entry entry_id hass_data = None
   ↔ registered entry_id hass_data = None)
  ∧ ∀ hass_data' w,
      async_unload_entry entry_id hass_data = Some (hass_data', w) →
      (∃ w0, registered entry_id hass_data = Some w0
             ∧ w = async_stop w0 ∧ tasks w = tasks w0
             ∧ state w = set_unsub false (state w0))
      ∧ registered entry_id hass_data' = None
      ∧ hass_data' !! DOMAIN ≠ Some ∅
      ∧ (∀ other, other ≠ entry_id →
           registered other hass_data' = registered other hass_data)
      ∧ (∀ key, key ≠ DOMAIN → hass_data' !! key = hass_data !! key).
Proof.
  unfold async_unload_entry, registered.
  destruct (hass_data !! DOMAIN) as [domain|] eqn:Hdom; [|by split].
  destruct (domain !! entry_id) as [slot|] eqn:Hslot; [|by split].
  destruct (slot !! RUNTIME) as [w0|] eqn:Hw0; [|by split].
  split; [by split|].
  intros hass_data' w [= <- <-]. split_and!.
  - exists w0. split_and!; try done.
    + unfold async_stop. by destruct (_unsub (self (state w0))).
    + unfold async_stop. destruct (_unsub (self (state w0))) eqn:Hu; [done|].
      destruct w0 as [[[] ? ?] ? ?]. simpl in *. by subst.
  - destruct (bool_decide _).
    + by rewrite lookup_delete_eq.
    + by rewrite lookup_insert_eq, lookup_delete_eq.
  - destruct (bool_decide _) eqn:Hempty.
    + by rewrite lookup_delete_eq.
    + apply bool_decide_eq_false in Hempty. rewrite lookup_insert_eq. congruence.
  - intros other Hother. destruct (bool_decide _) eqn:Hempty.
    + apply bool_decide_eq_true in Hempty. rewrite lookup_delete_eq.
      rewrite <- (lookup_delete_ne domain entry_id other) by done.
      by rewrite Hempty, lookup_empty.
    + rewrite lookup_insert_eq. by rewrite lookup_delete_ne.
  - intros key Hkey. destruct (bool_decide _).
    + by rewrite lookup_delete_ne.
    + by rewrite lookup_insert_ne.
Qed.

Lemma unload_removes_and_cleans_witness :
  let session := answering 200 "" (aiohttp.Decodes (json.JObj [])) in
  let w := async_start (boot (sample_runtime session) sample_data) in
  let hass_data : gmap string (gmap string (gmap string Loop)) :=
    {[ DOMAIN := {[ "entry-1" := {[ RUNTIME := w ]} ]} ]} in
  async_unload_entry "entry-1" hass_data = Some (∅, async_stop w)
  ∧ (∅ : gmap string (gmap string (gmap string Loop))) !! DOMAIN ≠ Some ∅.
Proof.
  intros session w hass_data.
  assert (async_unload_entry "entry-1" hass_data = Some (∅, async_stop w)) as Hun
    by (vm_compute; reflexivity).
  split; [exact Hun|].
  exact (proj1 (proj2 (proj2 (proj2 (unload_removes_and_cleans "entry-1" hass_data)
                                    ∅ (async_stop w) Hun)))).
Defined.

(** ** The API client: success *)

(** X24. A check-in call returns exactly when a response arrived whose
    status is below 400 and whose body decodes to a JSON object, and what it
    returns is that object; every other exchange ends in an exception. *)
Theorem checkin_returns_iff
    (self : MachineMonApiClient) (payload : Payload.t) (pw : string)
    (members : dict) :
  async_checkin self payload pw = Returns members
  ↔ ∃ r, checkin_exchange self payload pw = aiohttp.Responds r
         ∧ (aiohttp.status r < 400)%Z
         ∧ aiohttp.body_json r = aiohttp.Decodes (json.JObj members).
Proof.
  split.
  - unfold async_checkin, checkin_exchange, request_for, _request_json. cbv zeta.
    destruct (_session self _) as [e|r].
    + destruct (isinstance e MachineMonApiError); [done|].
      by destruct (isinstance e ClientError || isinstance e TimeoutError).
    + intros H. exists r. split; [done|]. revert H.
      destruct (aiohttp.status r =? 401)%Z; [done|].
      destruct (Z.leb_spec 400 (aiohttp.status r)); [done|].
      unfold aiohttp.json_. destruct (aiohttp.body_json r) as [v|msg]; [|done].
      destruct v; try done. by intros [= ->].
  - intros (r & Hx & Hlt & Hbody). unfold async_checkin.
    by apply (request_json_object _ _ _ _ _ r).
Qed.
